(** * pipeline_stages: a staged text-normalisation pipeline

    Shallow embedding of [pipeline.py], [pipeline_stages.py] and
    [sample.py], and the properties of the specification that concern
    the pipeline orchestrator, the preposition statistics stage
    ([OmittedPrepositions]), contraction expansion ([Decontract]) and
    the time-of-day generalisation ([GeneralizeTimeOfTheDay]).

    Conventions.
    - A Python [str] is a sequence of Unicode code points: [str] is
      [list N].  ASCII literals are written [lit "..."].
    - A Python [int] is unbounded: [Z].
    - A [dict] with string keys is a [gmap str _].
    - A call that may raise returns a [result]. *)

From Stdlib Require Import ZArith NArith List String Ascii Bool Lia.
From Stdlib Require Import Floats.SpecFloat.
From stdpp Require Import gmap list.

Local Open Scope Z_scope.

(** ** Python strings *)

Module PyStr.

Abbreviation char := N.
Abbreviation str := (list N).

(** An ASCII literal as a sequence of code points. *)
Definition lit (s : string) : str :=
  List.map N_of_ascii (list_ascii_of_string s).

(** [str.isspace] on one code point, the set [str.split()] and
    [str.strip()] use as separators. *)
Definition is_space (c : char) : bool :=
  ((9 <=? c) && (c <=? 13) || (28 <=? c) && (c <=? 32)
   || (c =? 133) || (c =? 160) || (c =? 5760)
   || (8192 <=? c) && (c <=? 8202)
   || (c =? 8232) || (c =? 8233) || (c =? 8239) || (c =? 8287)
   || (c =? 12288))%N.

(** [s.split()]: maximal runs of non-space characters, in order.
    [tok] is the token being read. *)
Fixpoint split_from (tok : str) (s : str) : list str :=
  match s with
  | [] => match tok with [] => [] | _ => [tok] end
  | c :: s' =>
      if is_space c
      then match tok with
           | [] => split_from [] s'
           | _ => tok :: split_from [] s'
           end
      else split_from (tok ++ [c]) s'
  end.

Definition split (s : str) : list str := split_from [] s.

(** [sep.join(l)] *)
Fixpoint join (sep : str) (l : list str) : str :=
  match l with
  | [] => []
  | [x] => x
  | x :: l' => x ++ sep ++ join sep l'
  end.

(** [s.lstrip()], [s.rstrip()], [s.strip()] *)
Fixpoint lstrip (s : str) : str :=
  match s with
  | c :: s' => if is_space c then lstrip s' else s
  | [] => []
  end.

Definition strip (s : str) : str := rev (lstrip (rev (lstrip s))).

Fixpoint is_prefix (p s : str) : bool :=
  match p, s with
  | [], _ => true
  | a :: p', b :: s' => (a =? b)%N && is_prefix p' s'
  | _ :: _, [] => false
  end.

(** [s.replace(old, new)] for a non-empty [old]: the occurrences are
    found left to right and do not overlap.  [skip] counts the
    characters of a found occurrence that are still to be dropped. *)
Fixpoint replace_from (old new : str) (skip : nat) (s : str) : str :=
  match s with
  | [] => []
  | c :: s' =>
      match skip with
      | S n => replace_from old new n s'
      | O =>
          if is_prefix old s
          then new ++ replace_from old new (length old - 1) s'
          else c :: replace_from old new 0 s'
      end
  end.

(** With an empty [old], Python puts [new] before every character and
    at the end. *)
Definition replace (old new : str) (s : str) : str :=
  match old with
  | [] => new ++ flat_map (fun c => c :: new) s
  | _ => replace_from old new 0 s
  end.

(** [s.translate(str.maketrans('', '', deleted))] *)
Definition delete_chars (deleted : str) (s : str) : str :=
  List.filter (fun c => negb (existsb (N.eqb c) deleted)) s.

(** [x in l] for a tuple or list of strings, and [l.index(x)]. *)
Definition str_eqb (a b : str) : bool := bool_decide (a = b).

Definition str_in (x : str) (l : list str) : bool := existsb (str_eqb x) l.

Fixpoint index_of (x : str) (l : list str) : option nat :=
  match l with
  | [] => None
  | y :: l' => if str_eqb x y then Some O else S <$> index_of x l'
  end.

End PyStr.

Import PyStr.

(** ** Exceptions *)

Inductive exn :=
| AttributeError
| TypeError
| FileNotFoundError
| ZeroDivisionError
| OverflowError.

Inductive result (A : Type) :=
| Ok (a : A)
| Raise (e : exn).
Arguments Ok {A} a.
Arguments Raise {A} e.

#[global] Instance result_ret : MRet result := fun A a => Ok a.

#[global] Instance result_bind : MBind result := fun A B k r =>
  match r with
  | Ok a => k a
  | Raise e => Raise e
  end.

(** ** The fragment of [re] that [OmittedPrepositions] uses

    Patterns are built from single characters, [.], the quantifiers [*]
    and [+] on a single character or [.], the anchor [$], sequence and
    alternation.  Capturing groups do not change which strings match,
    so [(r)] is [r]. *)

Module Re.

Inductive atom :=
| Dot                (* [.]: any character but a newline *)
| Chr (c : char).    (* a literal character *)

Inductive regex :=
| Eps
| Atom (a : atom)
| Star (a : atom)
| Plus (a : atom)
| Eol                (* [$] *)
| Seq (r1 r2 : regex)
| Alt (r1 r2 : regex).

Definition atom_matches (a : atom) (c : char) : bool :=
  match a with
  | Dot => negb (c =? 10)%N
  | Chr d => (c =? d)%N
  end.

(** Without [re.MULTILINE], [$] holds at the end of the string and just
    before a newline that ends the string. *)
Definition at_eol (rest : str) : bool :=
  match rest with
  | [] => true
  | [c] => (c =? 10)%N
  | _ => false
  end.

(** [star a k s]: some number of characters of [s] match [a] and the
    continuation [k] accepts what is left. *)
Fixpoint star (a : atom) (k : str -> bool) (s : str) : bool :=
  k s ||
  match s with
  | [] => false
  | c :: s' => atom_matches a c && star a k s'
  end.

(** Backtracking matcher in continuation-passing style: [run r s k]
    holds when [r] matches a prefix of [s] and [k] accepts the rest. *)
Fixpoint run (r : regex) (s : str) (k : str -> bool) : bool :=
  match r with
  | Eps => k s
  | Atom a =>
      match s with
      | [] => false
      | c :: s' => atom_matches a c && k s'
      end
  | Star a => star a k s
  | Plus a =>
      match s with
      | [] => false
      | c :: s' => atom_matches a c && star a k s'
      end
  | Eol => at_eol s && k s
  | Seq r1 r2 => run r1 s (fun s' => run r2 s' k)
  | Alt r1 r2 => run r1 s k || run r2 s k
  end.

(** [re.fullmatch(r, s)] as a truth value. *)
Definition fullmatch (r : regex) (s : str) : bool :=
  run r s (fun rest => match rest with [] => true | _ => false end).

(** A literal word. *)
Fixpoint word (w : str) : regex :=
  match w with
  | [] => Eps
  | c :: w' => Seq (Atom (Chr c)) (word w')
  end.

(** [r1|r2|...] *)
Fixpoint alts (rs : list regex) : regex :=
  match rs with
  | [] => Eps
  | [r] => r
  | r :: rs' => Alt r (alts rs')
  end.

End Re.

(** ** Python numbers: [int / int] and the comparison with an [int] *)

Module PyNum.

(** binary64 *)
Definition prec : Z := 53.
Definition emax : Z := 1024.

Definition float_of_int_parts (a : Z) : spec_float :=
  match a with
  | Z0 => S754_zero false
  | Zpos p => S754_finite false p 0
  | Zneg p => S754_finite true p 0
  end.

(** [a / b] on two [int]s: the binary64 value nearest to the exact
    quotient (ties to even); [ZeroDivisionError] when [b] is zero and
    [OverflowError] when the rounded quotient leaves the binary64
    range, that is when [|a / b| >= 2^1024 - 2^970]. *)
Definition truediv (a b : Z) : result spec_float :=
  if b =? 0 then Raise ZeroDivisionError
  else if (2 ^ 1024 - 2 ^ 970) * Z.abs b <=? Z.abs a then Raise OverflowError
  else Ok (SFdiv prec emax (float_of_int_parts a) (float_of_int_parts b)).

(** [x <= n] for a float [x] and an [int] [n]: Python compares the two
    exactly. *)
Definition float_le_int (x : spec_float) (n : Z) : bool :=
  match x with
  | S754_zero _ => 0 <=? n
  | S754_infinity s => s
  | S754_nan => false
  | S754_finite s m e =>
      let v := if s then Z.neg m else Z.pos m in
      if 0 <=? e then v * 2 ^ e <=? n else v <=? n * 2 ^ (- e)
  end.

(** The value bound to [factor]: a float or an [int]. *)
Inductive number :=
| Float (x : spec_float)
| Int (n : Z).

Definition num_le_int (x : number) (n : Z) : bool :=
  match x with
  | Float f => float_le_int f n
  | Int m => m <=? n
  end.

End PyNum.

(** ** [OmittedPrepositions] *)

Module OmittedPrepositions.

(** A value of the [stat] dictionary, the tuple [(n1, n2, n3, n4)]:
    total occurrences of the token, then its occurrences with [on],
    with [at] and with [in]. *)
Abbreviation counts := (Z * Z * Z * Z)%type.

Definition tuple_to_list (v : counts) : list Z :=
  let '(n1, n2, n3, n4) := v in [n1; n2; n3; n4].

(** [val[i]] *)
Definition tuple_get (v : counts) (i : nat) : Z :=
  nth i (tuple_to_list v) 0.

(** [val[i] = x]; the indices used are 0 to 3. *)
Definition tuple_set (i : nat) (x : Z) (v : counts) : counts :=
  let '(n1, n2, n3, n4) := v in
  match i with
  | 0%nat => (x, n2, n3, n4)
  | 1%nat => (n1, x, n3, n4)
  | 2%nat => (n1, n2, x, n4)
  | 3%nat => (n1, n2, n3, x)
  | _ => v
  end.

(** [val[i] += 1] *)
Definition tuple_incr (i : nat) (v : counts) : counts :=
  tuple_set i (tuple_get v i + 1) v.

(** [max(l)] and [l.index(x)] on a non-empty list of [int]s *)
Definition py_max (l : list Z) : Z :=
  match l with
  | [] => 0
  | x :: l' => fold_left Z.max l' x
  end.

Fixpoint int_index (x : Z) (l : list Z) : nat :=
  match l with
  | [] => 0
  | y :: l' => if x =? y then 0 else S (int_index x l')
  end.

(** The persisted artifact, the dictionary
    [{'stat': ..., 'threshold': ...}] that [save] pickles. *)
Record artifact := Artifact {
  art_stat : gmap str counts;
  art_threshold : Z
}.

(** The files under the storage directories: a file path is bound to
    the object pickled into it.  [gzip] and [pickle] are taken to
    round-trip, and a file can be written at every path. *)
Abbreviation filesystem := (gmap str artifact).

(** [os.path.join(a, b)] (POSIX) *)
Definition os_path_join (a b : str) : str :=
  match b with
  | 47%N :: _ => b
  | _ =>
      match last a with
      | None => b
      | Some 47%N => a ++ b
      | Some _ => a ++ [47%N] ++ b
      end
  end.

(** The attributes of an instance that change or are read after
    construction.  [self.name], [self.file_name] and
    [self.prepositions] are the same for every instance. *)
Record t := Self {
  storage_path : option str;
  stat : gmap str counts;
  threshold : Z
}.

Definition name : str := lit "prepositions_of_time".
Definition file_name : str := name ++ lit ".mdl".
Definition prepositions : list str := [lit "on"; lit "at"; lit "in"].

(** An entry of [regex_list] for the preposition [p]: any characters,
    one or more spaces, [p], then one or more spaces or [$], then any
    characters. *)
Definition regex_for (p : str) : Re.regex :=
  Re.Seq (Re.Star Re.Dot)
    (Re.Seq (Re.Plus (Re.Chr 32%N))
       (Re.Seq (Re.word p)
          (Re.Seq (Re.Alt (Re.Plus (Re.Chr 32%N)) Re.Eol)
             (Re.Star Re.Dot)))).

Definition regex_list : list Re.regex :=
  [regex_for (lit "on"); regex_for (lit "at"); regex_for (lit "in")].

Definition preposition_regex : Re.regex := Re.alts regex_list.

(** Truth value of an optional string: [None] and [''] are false. *)
Definition truthy (p : option str) : bool :=
  match p with
  | Some (_ :: _) => true
  | _ => false
  end.

Definition set_storage_path (self : t) (p : option str) : t :=
  if truthy p
  then {| storage_path := p; stat := stat self; threshold := threshold self |}
  else self.

Definition save (self : t) (arg : option str) (fs : filesystem)
  : result (t * filesystem) :=
  let self := set_storage_path self arg in
  match storage_path self with
  | Some (c :: p) =>
      let file := os_path_join (c :: p) file_name in
      let tmp := {| art_stat := stat self; art_threshold := threshold self |} in
      Ok (self, <[file := tmp]> fs)
  | _ => Ok (self, fs)
  end.

Definition load (self : t) (arg : option str) (fs : filesystem) : result t :=
  let self := set_storage_path self arg in
  match storage_path self with
  | Some (c :: p) =>
      let file := os_path_join (c :: p) file_name in
      match fs !! file with
      | Some tmp =>
          Ok {| storage_path := storage_path self;
                stat := art_stat tmp;
                threshold := threshold self |}
      | None => Raise FileNotFoundError
      end
  | _ => Ok self
  end.

(** [OmittedPrepositions(nlp_model, storage_path)].  The copy of the
    engine and the components it disables belong to the engine, which
    [transform] takes as a function. *)
Definition init (path : option str) (fs : filesystem) : result t :=
  load {| storage_path := path; stat := ∅; threshold := 27 |} path fs.

Definition enumerate {A} (l : list A) : list (nat * A) :=
  imap (fun i x => (i, x)) l.

(** One round of the inner loop of the first pass. *)
Definition count_pair (tokens : list str) (st : gmap str counts)
  (it : nat * str) : gmap str counts :=
  let '(i, t) := it in
  if negb (str_in t prepositions) then st
  else
    match tokens !! i, index_of t prepositions with
    | Some prev_token, Some j =>
        let prep_indx := (j + 1)%nat in
        match st !! prev_token with
        | Some val => <[prev_token := tuple_incr prep_indx val]> st
        | None => <[prev_token := tuple_set prep_indx 1 (0, 0, 0, 0)]> st
        end
    | _, _ => st
    end.

(** One round of the first loop of [fit]. *)
Definition count_pairs (st : gmap str counts) (txt : str) : gmap str counts :=
  if negb (Re.fullmatch preposition_regex txt) then st
  else
    let tokens := split txt in
    foldl (count_pair tokens) st (enumerate (tail tokens)).

(** One round of the second loop of [fit]. *)
Definition count_total (st : gmap str counts) (token : str) : gmap str counts :=
  match st !! token with
  | Some val => <[token := tuple_incr 0 val]> st
  | None => st
  end.

Definition count_totals (st : gmap str counts) (txt : str) : gmap str counts :=
  foldl count_total st (split txt).

(** The dictionary [self.stat] after the two loops of [fit]. *)
Definition fit_stat (X : list str) : gmap str counts :=
  let st := foldl count_pairs ∅ X in
  foldl count_totals st X.

Definition fit (self : t) (X : list str) : t :=
  {| storage_path := storage_path self;
     stat := fit_stat X;
     threshold := threshold self |}.

(** A token of the document the engine returns. *)
Record token := Token {
  text : str;
  pos_ : str
}.

Section Transform.

(** The engine: [self.nlp(s)] is the sequence of the tokens of [s]. *)
Variable nlp : str -> list token.

Definition transform (self : t) (X : list str) : result (list str) :=
  match last X with
  | None => Ok X
  | Some x_last =>
      match last (nlp x_last) with
      | None => Ok X
      | Some last_tok =>
          if negb (str_eqb (pos_ last_tok) (lit "VERB")) then Ok X
          else
            match stat self !! text last_tok with
            | None => Ok X
            | Some cnts =>
                let rest := tail (tuple_to_list cnts) in
                let max_index := (int_index (py_max rest) rest + 1)%nat in
                let cnt_with_prep := tuple_get cnts max_index in
                let cnt_total := tuple_get cnts 0 in
                factor ← (if cnt_with_prep =? 0
                          then Ok (PyNum.Int (threshold self))
                          else x ← PyNum.truediv cnt_total cnt_with_prep;
                               Ok (PyNum.Float x));
                if PyNum.num_le_int factor (threshold self)
                then Ok (X ++ [nth (max_index - 1) prepositions []])
                else Ok X
            end
      end
  end.

End Transform.

End OmittedPrepositions.

(** ** [Pipeline] *)

Module Pipeline.

(** An element of [self.pipe] is a Python object: [SomePipeline] stores
    pairs [(name, stage)]; a stage object stored as such is the other
    shape the two loops can meet. *)
Inductive entry (stage : Type) :=
| Pair (name : str) (s : stage)
| Obj (s : stage).
Arguments Pair {stage} name s.
Arguments Obj {stage} s.

(** A recorded call [stage.fit(X, Y)]. *)
Record call (stage data : Type) := Call {
  callee : stage;
  arg_X : data;
  arg_Y : option data
}.
Arguments Call {stage data} callee arg_X arg_Y.

Section Pipeline.

Context {stage data : Type}.

(** The [fit] and [transform] methods of the stage objects. *)
Variable stage_fit : stage -> data -> option data -> result stage.
Variable stage_transform : stage -> data -> result data.

(** [Pipeline.fit]: the loop [self.pipe[i].fit(X, Y)].  A tuple has no
    attribute [fit].  The result is the list of the calls made and
    either the pipeline after the loop or the exception raised. *)
Fixpoint fit (pipe : list (entry stage)) (X : data) (Y : option data)
  : list (call stage data) * result (list (entry stage)) :=
  match pipe with
  | [] => ([], Ok [])
  | Pair _ _ :: _ => ([], Raise AttributeError)
  | Obj s :: rest =>
      match stage_fit s X Y with
      | Raise e => ([Call s X Y], Raise e)
      | Ok s' =>
          let '(calls, r) := fit rest X Y in
          (Call s X Y :: calls, rest' ← r; Ok (Obj s' :: rest'))
      end
  end.

(** [Pipeline.transform]: the loop [X = step[1].transform(X)].  A stage
    object is not subscriptable. *)
Fixpoint transform (pipe : list (entry stage)) (X : data) : result data :=
  match pipe with
  | [] => Ok X
  | Pair _ s :: rest => X' ← stage_transform s X; transform rest X'
  | Obj _ :: _ => Raise TypeError
  end.

End Pipeline.

(** [PipelineStage.fit] and [PipelineStage.transform], which the stage
    classes inherit unless they define their own. *)
Definition PipelineStage_fit {stage data} (self : stage) (X : data)
  (Y : option data) : result stage := Ok self.


End Pipeline.

(** ** [SomePipeline] of [sample.py] *)

Module SomePipeline.

(** The stage objects of the sample pipeline.  Only
    [OmittedPrepositions] has attributes that [fit] changes. *)
Inductive stage :=
| CleanText
| GeneralizeDayOfWeek
| LowerText
| Decontract
| CleanPunctLight
| GeneralizeEnts
| CleanDigits
| TokenizeSplit
| StopWords
| OneChar
| OmittedPrepositions (self : OmittedPrepositions.t)
| SkipPastTenses
| JoinTokens.

(** [stage.fit(X, Y)] by class: [OmittedPrepositions] defines [fit],
    the others inherit [PipelineStage.fit]. *)
Definition stage_fit (s : stage) (X : list str) (Y : option (list str))
  : result stage :=
  match s with
  | OmittedPrepositions self =>
      Ok (OmittedPrepositions (OmittedPrepositions.fit self X))
  | _ => Pipeline.PipelineStage_fit s X Y
  end.

(** [SomePipeline(storage_path)]: the list assigned to [self.pipe]. *)
Definition init (path : option str) (fs : OmittedPrepositions.filesystem)
  : result (list (Pipeline.entry stage)) :=
  op ← OmittedPrepositions.init path fs;
  Ok [ Pipeline.Pair (lit "clean_text") CleanText;
       Pipeline.Pair (lit "generalize_dow") GeneralizeDayOfWeek;
       Pipeline.Pair (lit "lower_text") LowerText;
       Pipeline.Pair (lit "decontract") Decontract;
       Pipeline.Pair (lit "clean_punct") CleanPunctLight;
       Pipeline.Pair (lit "generalize") GeneralizeEnts;
       Pipeline.Pair (lit "clean_digits") CleanDigits;
       Pipeline.Pair (lit "tokenize") TokenizeSplit;
       Pipeline.Pair (lit "stop_words") StopWords;
       Pipeline.Pair (lit "strip_one_chars") OneChar;
       Pipeline.Pair (lit "omitted_prepositions") (OmittedPrepositions op);
       Pipeline.Pair (lit "skip_past_tenses") SkipPastTenses;
       Pipeline.Pair (lit "tokens_to_string") JoinTokens ].

End SomePipeline.

(** ** [Decontract] *)

Module Decontract.

Section Decontract.

(** The table of the module [contractions], which is not part of the
    sources at hand: a dictionary from a contraction to its full
    version. *)
Variable CONTRACTIONS : gmap str str.

(** One round of the loop over the tokens. *)
Definition expand (X : str) (token : str) : str :=
  match CONTRACTIONS !! token with
  | Some (c :: d) => replace token (c :: d) X
  | _ => X
  end.

Definition transform (X : str) : str :=
  let X := replace [8217%N] (lit "'") X in
  foldl expand X (split X).

End Decontract.

End Decontract.

(** ** [GeneralizeTimeOfTheDay] *)

Module GeneralizeTimeOfTheDay.

Definition _label : str := lit "TIME_OF_THE_DAY".

(** The tuple [self.synonyms].  The source has no comma between
    ['bedtime'] and ['day']: the two literals are one string. *)
Definition synonyms : list str :=
  [ lit "afternoon"; lit "arvo"; lit "bedtime" ++ lit "day";
    lit "daylight"; lit "daytime";
    lit "eve"; lit "evening"; lit "mealtime";
    lit "morning"; lit "night"; lit "nighttime";
    lit "tonight"; lit "lunchtime" ].

(** [string.punctuation] *)
Definition punctuation : str :=
  lit "!" ++ [34%N] ++ lit "#$%&'()*+,-./:;<=>?@[\]^_`{|}~".

(** The value the comprehension yields for one token. *)
Definition relabel (token : str) : str :=
  if str_in (delete_chars punctuation token) synonyms then _label else token.

(** The filter [if token.strip()] of the comprehension. *)
Definition nonblank (token : str) : bool :=
  match strip token with
  | [] => false
  | _ => true
  end.

Definition transform (X : str) : str :=
  join (lit " ") (List.map relabel (List.filter nonblank (split X))).

End GeneralizeTimeOfTheDay.

(** ** Patterns with character classes

    The patterns of [GeneralizeDayNumber] and [GeneralizeYear]:
    character classes, sequence, alternation and a fixed repetition
    count. *)

Module ReClass.

(** An element of a class [[...]]: a range [lo-hi] or one character. *)
Inductive item :=
| Range (lo hi : char)
| Single (c : char).

Inductive regex :=
| Class (items : list item)
| Seq (r1 r2 : regex)
| Alt (r1 r2 : regex)
| Repeat (n : nat) (r : regex).    (* [r{n}] *)

Definition item_matches (i : item) (c : char) : bool :=
  match i with
  | Range lo hi => ((lo <=? c) && (c <=? hi))%N
  | Single d => (c =? d)%N
  end.

Definition class_matches (items : list item) (c : char) : bool :=
  existsb (fun i => item_matches i c) items.

(** [run r s k]: [r] matches a prefix of [s] and [k] accepts the
    rest. *)
Fixpoint run (r : regex) (s : str) (k : str -> bool) : bool :=
  match r with
  | Class items =>
      match s with
      | [] => false
      | c :: s' => class_matches items c && k s'
      end
  | Seq r1 r2 => run r1 s (fun s' => run r2 s' k)
  | Alt r1 r2 => run r1 s k || run r2 s k
  | Repeat n r1 =>
      (fix rep (n : nat) (s : str) : bool :=
         match n with
         | O => k s
         | S n' => run r1 s (rep n')
         end) n s
  end.

Definition fullmatch (r : regex) (s : str) : bool :=
  run r s (fun rest => match rest with [] => true | _ => false end).

End ReClass.

(** ** The stages that delete characters *)

(** [string.digits] *)
Definition string_digits : str := lit "0123456789".

Module CleanPunct.

Definition transform (X : str) : str :=
  delete_chars GeneralizeTimeOfTheDay.punctuation X.

End CleanPunct.

Module CleanPunctLight.

(** The characters the light variant deletes. *)
Definition deleted : str :=
  lit "!" ++ [34%N] ++ lit "#$%&()*+/:;<=>@[\]^_`{|}~".

Definition transform (X : str) : str := delete_chars deleted X.

End CleanPunctLight.

Module CleanDigits.

Definition transform (X : str) : str := delete_chars string_digits X.

End CleanDigits.

(** ** [GeneralizeDayNumber] and [GeneralizeYear] *)

Module GeneralizeDayNumber.

Definition _label : str := lit "DAY_NUMBER".

(** The pattern of [day_regex_list]: the class of the range [1-3] and
    the character [1]; or a character of [0-2] and one of [0-9]; or
    the character [3] and one of [0], [,], [1]. *)
Definition day_regex : ReClass.regex :=
  ReClass.Alt
    (ReClass.Class [ReClass.Range 49 51; ReClass.Single 49])
    (ReClass.Alt
       (ReClass.Seq (ReClass.Class [ReClass.Range 48 50])
                    (ReClass.Class [ReClass.Range 48 57]))
       (ReClass.Seq (ReClass.Class [ReClass.Single 51])
                    (ReClass.Class [ReClass.Single 48; ReClass.Single 44;
                                    ReClass.Single 49]))).

Definition relabel (token : str) : str :=
  if ReClass.fullmatch day_regex token then _label else token.

Definition transform (X : str) : str :=
  join (lit " ") (List.map relabel (split X)).

End GeneralizeDayNumber.

Module GeneralizeYear.

Definition _label : str := lit "YEAR".

(** A character of [1-2] and three of [0-9]. *)
Definition year_regex : ReClass.regex :=
  ReClass.Seq (ReClass.Class [ReClass.Range 49 50])
              (ReClass.Repeat 3 (ReClass.Class [ReClass.Range 48 57])).

Definition relabel (token : str) : str :=
  if ReClass.fullmatch year_regex token then _label else token.

Definition transform (X : str) : str :=
  join (lit " ") (List.map relabel (split X)).

End GeneralizeYear.

(** ** [GeneralizeDayOfWeek] and [GeneralizeMonth] *)

Module GeneralizeDayOfWeek.

Definition _label : str := lit "DAY_OF_WEEK".

Definition synonyms : list str :=
  [ lit "monday"; lit "mon"; lit "mo";
    lit "tuesday"; lit "tue"; lit "tu";
    lit "wednesday"; lit "wed"; lit "we";
    lit "thursday"; lit "thu"; lit "th";
    lit "friday"; lit "fri"; lit "fr";
    lit "saturday"; lit "sat"; lit "sa";
    lit "sunday"; lit "sun"; lit "su" ].

Definition relabel (token : str) : str :=
  if str_in (delete_chars GeneralizeTimeOfTheDay.punctuation token) synonyms
  then _label else token.

Definition transform (X : str) : str :=
  join (lit " ")
    (List.map relabel (List.filter GeneralizeTimeOfTheDay.nonblank (split X))).

End GeneralizeDayOfWeek.

Module GeneralizeMonth.

Definition _label : str := lit "MONTH".

Definition synonyms : list str :=
  [ lit "january"; lit "jan";
    lit "february"; lit "feb";
    lit "march"; lit "mar";
    lit "april"; lit "apr";
    lit "may";
    lit "june"; lit "jun";
    lit "july"; lit "jul";
    lit "august"; lit "aug";
    lit "september"; lit "sep"; lit "sept";
    lit "october"; lit "oct";
    lit "november"; lit "nov";
    lit "december"; lit "dec" ].

Definition relabel (token : str) : str :=
  if str_in (delete_chars GeneralizeTimeOfTheDay.punctuation token) synonyms
  then _label else token.

Definition transform (X : str) : str :=
  join (lit " ")
    (List.map relabel (List.filter GeneralizeTimeOfTheDay.nonblank (split X))).

End GeneralizeMonth.

(** ** The stages on token lists *)

Definition UNK_LABEL : str := lit "UNK".

Module TokenizeSplit.

Definition transform (X : str) : list str :=
  List.filter GeneralizeTimeOfTheDay.nonblank (split X).

End TokenizeSplit.

Module CountOfTokens.

(** [self.n] is the argument [n]; the result is [''] or [X]. *)
Definition transform (n : nat) (X : str) : str :=
  if (length (split X) <=? n)%nat then [] else X.

End CountOfTokens.

Module JoinTokens.

Definition transform (X : list str) : str := strip (join (lit " ") X).

End JoinTokens.

Module Detokenize.

Definition transform (X : list str) : str := join (lit " ") X.

End Detokenize.

Module StopWords.

Definition stop_words : list str := [lit "op"].

Definition mask (token : str) : str :=
  if negb (str_in token stop_words) then token else UNK_LABEL.

Definition transform (X : list str) : list str := List.map mask X.

End StopWords.

Module OneChar.

Definition mask (token : str) : str :=
  if (1 <? length token)%nat || str_in token [lit "i"; lit "a"]
  then token else UNK_LABEL.

Definition transform (X : list str) : list str := List.map mask X.

End OneChar.

(** ** [GeneralizeEnts] *)

Module GeneralizeEnts.

(** A named-entity span of the document: character offsets into the
    analysed string, the label and the text of the span. *)
Record ent := Ent {
  start_char : nat;
  end_char : nat;
  label_ : str;
  ent_text : str
}.

Section GeneralizeEnts.

(** [self.nlp(X).ents] and [self.ignore_ents]. *)
Variable ents_of : str -> list ent.
Variable ignore_ents : list str.

(** One round of the loop: [X[:start] + replacement + X[end:]]. *)
Definition substitute (X : str) (e : ent) : str :=
  let label := label_ e in
  if str_in label ignore_ents
  then take (start_char e) X ++ ent_text e ++ drop (end_char e) X
  else take (start_char e) X ++ label ++ drop (end_char e) X.

Definition transform (X : str) : str :=
  foldl substitute X (rev (ents_of X)).

End GeneralizeEnts.

End GeneralizeEnts.

(** ** [SkipPastTenses] *)

Module SkipPastTenses.

(** A token of the parsed sentence, with the attributes the stage
    reads. *)
Record token := Token {
  dep_ : str;
  tag_ : str;
  pos_ : str
}.

(** A sentence: its root and [root.children]. *)
Record sent := Sent {
  root : token;
  children : list token
}.

(** The argument of [transform]: a string or a list of tokens. *)
Inductive value :=
| Str (s : str)
| Tokens (l : list str).

Section SkipPastTenses.

(** [list(self.nlp(sentence).sents)] *)
Variable sents_of : str -> list sent.

(** One round of the loop over the children of the root. *)
Definition refine (is_past_tense : bool) (child : token) : bool :=
  if str_eqb (pos_ child) (lit "VERB")
  then negb (str_eqb (tag_ child) (lit "VBP"))
  else is_past_tense.

Definition detect_past_tense (sentence : str) : bool :=
  match last (sents_of sentence) with
  | None => false
  | Some sent_token =>
      if str_eqb (dep_ (root sent_token)) (lit "ROOT")
      then
        if str_eqb (tag_ (root sent_token)) (lit "VBD")
           || (existsb (fun w => str_eqb (dep_ w) (lit "aux")
                                 && str_eqb (tag_ w) (lit "VBD"))
                 (children sent_token)
               && (1 <? length (children sent_token))%nat)
        then foldl refine true (children sent_token)
        else false
      else false
  end.

Definition transform (X : value) : value :=
  let sentence :=
    match X with
    | Str s => s
    | Tokens l => join (lit " ") l
    end in
  if detect_past_tense sentence then Str [] else X.

End SkipPastTenses.

End SkipPastTenses.

(** * Vocabulary of the specification *)

Module Spec.

(** Number of occurrences of the token [k] in a token list. *)
Fixpoint occurrences (k : str) (tokens : list str) : Z :=
  match tokens with
  | [] => 0
  | t :: tokens' => (if str_eqb t k then 1 else 0) + occurrences k tokens'
  end.

(** The indicator that the adjacent tokens [t], [u] are [k], [p]. *)
Definition pair_is (k p t u : str) : Z :=
  if str_eqb t k && str_eqb u p then 1 else 0.

(** Number of positions at which [k] is immediately followed by [p]. *)
Fixpoint followed_by (k p : str) (tokens : list str) : Z :=
  match tokens with
  | t :: ((u :: _) as tokens') =>
      pair_is k p t u + followed_by k p tokens'
  | _ => 0
  end.

(** Whether the first loop of [fit] retains a training string. *)
Definition retained (txt : str) : bool :=
  Re.fullmatch OmittedPrepositions.preposition_regex txt.

(** What one training string adds to the counter of [k] with [p]: its
    adjacent pairs when it is retained, nothing otherwise. *)
Definition pairs_in (k p : str) (txt : str) : Z :=
  if retained txt then followed_by k p (split txt) else 0.

(** What one training string adds to the total of [k]. *)
Definition occurrences_in (k : str) (txt : str) : Z :=
  occurrences k (split txt).

(** Number of whitespace tokens of a training string. *)
Definition tokens_in (txt : str) : Z := Z.of_nat (length (split txt)).

(** Sum of a count over the strings of a corpus. *)
Definition total_of (f : str -> Z) (X : list str) : Z :=
  foldr (fun txt n => f txt + n) 0 X.

(** A record, or its absence, after [a], [b], [c] more pairs with
    [on], [at], [in] were counted for its key. *)
Definition merge (o : option OmittedPrepositions.counts) (a b c : Z)
  : option OmittedPrepositions.counts :=
  match o with
  | Some (n1, n2, n3, n4) => Some (n1, n2 + a, n3 + b, n4 + c)
  | None =>
      if (a =? 0) && (b =? 0) && (c =? 0) then None else Some (0, a, b, c)
  end.

(** A record after [n] more occurrences of its key were counted. *)
Definition add_total (n : Z) (v : OmittedPrepositions.counts)
  : OmittedPrepositions.counts :=
  let '(n1, n2, n3, n4) := v in (n1 + n, n2, n3, n4).

(** A string with no whitespace character. *)
Definition clean (t : str) : Prop := Forall (fun c => is_space c = false) t.

(** A training string as the claim reads it: one of its
    whitespace-delimited tokens is a candidate preposition. *)
Definition has_preposition_token (txt : str) : bool :=
  existsb (fun t => str_in t OmittedPrepositions.prepositions) (split txt).

(** A training string as the pattern reads it: no newline, and a
    candidate preposition that follows a space character and is
    followed by a space character or by the end of the string. *)
Definition spaced_preposition (txt : str) : Prop :=
  (10%N ∉ txt) /\
  exists before p after,
    p ∈ OmittedPrepositions.prepositions /\
    txt = before ++ [32%N] ++ p ++ after /\
    (after = [] \/ exists after', after = 32%N :: after').

(** The tables whose totals [int / int] can divide without leaving the
    binary64 range. *)
Definition within_float_range (st : gmap str OmittedPrepositions.counts) : Prop :=
  map_Forall (fun _ v => Z.abs (OmittedPrepositions.tuple_get v 0) < 2 ^ 1023) st.

End Spec.

(** * Vocabulary of the further properties *)

Module Reading.

(** The text with every right single quote turned into an
    apostrophe. *)
Definition straighten (X : str) : str :=
  List.map (fun c => if (c =? 8217)%N then 39%N else c) X.

(** What [GeneralizeEnts] writes in place of a span. *)
Definition replacement (ignore_ents : list str) (e : GeneralizeEnts.ent) : str :=
  if str_in (GeneralizeEnts.label_ e) ignore_ents
  then GeneralizeEnts.ent_text e
  else GeneralizeEnts.label_ e.

(** Spans in text order from the offset [pos], each within the text
    and none overlapping the next. *)
Fixpoint ordered (pos : nat) (ents : list GeneralizeEnts.ent) (len : nat) : Prop :=
  match ents with
  | [] => (pos <= len)%nat
  | e :: rest =>
      (pos <= GeneralizeEnts.start_char e)%nat /\
      (GeneralizeEnts.start_char e <= GeneralizeEnts.end_char e)%nat /\
      ordered (GeneralizeEnts.end_char e) rest len
  end.

(** The text from the offset [pos] on, read left to right with every
    span replaced. *)
Fixpoint render (ignore_ents : list str) (X : str) (pos : nat)
  (ents : list GeneralizeEnts.ent) : str :=
  match ents with
  | [] => drop pos X
  | e :: rest =>
      take (GeneralizeEnts.start_char e - pos) (drop pos X)
      ++ replacement ignore_ents e
      ++ render ignore_ents X (GeneralizeEnts.end_char e) rest
  end.

(** The children of a root that are tagged as verbs. *)
Definition verbs (children : list SkipPastTenses.token)
  : list SkipPastTenses.token :=
  List.filter (fun c => str_eqb (SkipPastTenses.pos_ c) (lit "VERB")) children.

End Reading.

(** * Concrete data used by the scenarios *)

Module Scenario.

(** The training corpus of the restoration scenario. *)
Definition corpus : list str :=
  [lit "i work on monday"; lit "i work on tuesday"; lit "i relax"].

(** An engine that returns its input as one token tagged VERB. *)
Definition verb_tagger (s : str) : list OmittedPrepositions.token :=
  [ {| OmittedPrepositions.text := s; OmittedPrepositions.pos_ := lit "VERB" |} ].

(** The instance [OmittedPrepositions(nlp)] with no storage location. *)
Definition fresh : OmittedPrepositions.t :=
  {| OmittedPrepositions.storage_path := None;
     OmittedPrepositions.stat := ∅;
     OmittedPrepositions.threshold := 27 |}.

Definition fitted : OmittedPrepositions.t :=
  OmittedPrepositions.fit fresh corpus.

(** A storage directory. *)
Definition models : str := lit "./models".

(** A training string whose preposition follows a tab. *)
Definition tab_delimited : str := lit "i work" ++ [9%N] ++ lit "on monday".

(** A contraction table with one entry. *)
Definition one_contraction : gmap str str :=
  {[ lit "can't" := lit "cannot" ]}.

End Scenario.

(** * Concrete data used by the further properties *)

Module Sample.

(** A text and the two spans an engine may report in it. *)
Definition meeting : str := lit "meet bob in paris".

Definition meeting_ents (X : str) : list GeneralizeEnts.ent :=
  [ {| GeneralizeEnts.start_char := 5; GeneralizeEnts.end_char := 8;
       GeneralizeEnts.label_ := lit "PERSON";
       GeneralizeEnts.ent_text := lit "bob" |};
    {| GeneralizeEnts.start_char := 12; GeneralizeEnts.end_char := 17;
       GeneralizeEnts.label_ := lit "GPE";
       GeneralizeEnts.ent_text := lit "paris" |} ].

(** A parse of one sentence: a past-tense root with an auxiliary and a
    present-tense verb among its children. *)
Definition parsed (s : str) : list SkipPastTenses.sent :=
  [ {| SkipPastTenses.root :=
         {| SkipPastTenses.dep_ := lit "ROOT";
            SkipPastTenses.tag_ := lit "VBD";
            SkipPastTenses.pos_ := lit "VERB" |};
       SkipPastTenses.children :=
         [ {| SkipPastTenses.dep_ := lit "nsubj";
              SkipPastTenses.tag_ := lit "PRP";
              SkipPastTenses.pos_ := lit "PRON" |};
           {| SkipPastTenses.dep_ := lit "ccomp";
              SkipPastTenses.tag_ := lit "VBP";
              SkipPastTenses.pos_ := lit "VERB" |} ] |} ].

End Sample.

(** * Properties *)

(** ** Pipeline.fit *)

Section PipelineFacts.

Context {stage data : Type}.
Variable stage_fit : stage -> data -> option data -> result stage.

(** A pipeline whose first element is a pair stops at that element:
    no stage is called and [AttributeError] is raised. *)
Lemma fit_pair_raises name (s : stage) rest (X : data) Y :
  Pipeline.fit stage_fit (Pipeline.Pair name s :: rest) X Y
  = ([], Raise AttributeError).
Proof. reflexivity. Qed.

(** On stage objects stored without a name, when no call raises, the
    loop calls every stage once, in order, each with the [X] and [Y]
    that [Pipeline.fit] received. *)
Lemma fit_objects_broadcast (stages : list stage) (X : data) Y :
  Forall (fun s => exists s', stage_fit s X Y = Ok s') stages ->
  exists pipe',
    Pipeline.fit stage_fit (List.map Pipeline.Obj stages) X Y
    = (List.map (fun s => Pipeline.Call s X Y) stages, Ok pipe').
Proof.
  induction 1 as [|s stages [s' Hs] _ [pipe' IH]]; simpl.
  - by exists [].
  - rewrite Hs, IH. by eexists.
Qed.

End PipelineFacts.

(** C1: on the pipeline of [sample.py], built as a sequence of
    (name, stage) pairs, [Pipeline.fit] calls no stage and raises
    [AttributeError]; it does not call each stage's [fit] with [X] and
    [Y] and does not return the pipeline. *)
Theorem SomePipeline_fit_raises :
  exists pipe,
    SomePipeline.init None ∅ = Ok pipe /\
    Pipeline.fit SomePipeline.stage_fit pipe [lit "i work on monday"] None
    = ([], Raise AttributeError).
Proof. eexists. split; reflexivity. Qed.

(** ** OmittedPrepositions.transform *)

Section TransformFacts.

Import OmittedPrepositions.

Variable nlp : str -> list token.

(** [cnts[1:].index(max(cnts[1:]))]: the first position of the largest
    of three counters. *)
Lemma argmax_cases (a b c : Z) :
  let rest := [a; b; c] in
  let i := int_index (py_max rest) rest in
  (i = 0%nat /\ b <= a /\ c <= a) \/
  (i = 1%nat /\ a < b /\ c <= b) \/
  (i = 2%nat /\ a < c /\ b < c).
Proof.
  cbn [py_max fold_left int_index].
  repeat match goal with
         | |- context [ (?x =? ?y) ] => destruct (Z.eqb_spec x y)
         end; lia.
Qed.

(** The path through [transform] when the last token of the document
    is a verb with a record. *)
Lemma transform_verb_record self (X : list str) x tok cnts :
  last X = Some x ->
  last (nlp x) = Some tok ->
  pos_ tok = lit "VERB" ->
  stat self !! text tok = Some cnts ->
  transform nlp self X =
    let rest := tail (tuple_to_list cnts) in
    let max_index := (int_index (py_max rest) rest + 1)%nat in
    let cnt_with_prep := tuple_get cnts max_index in
    factor ← (if cnt_with_prep =? 0
              then Ok (PyNum.Int (threshold self))
              else x ← PyNum.truediv (tuple_get cnts 0) cnt_with_prep;
                   Ok (PyNum.Float x));
    if PyNum.num_le_int factor (threshold self)
    then Ok (X ++ [nth (max_index - 1) prepositions []])
    else Ok X.
Proof.
  intros HX Hdoc Hpos Hrec. unfold transform.
  rewrite HX, Hdoc, Hpos, Hrec.
  unfold str_eqb. rewrite bool_decide_eq_true_2 by reflexivity. reflexivity.
Qed.

(** The selection and the decision, given the four counters. *)
Lemma transform_selects self (X : list str) x tok t a b c :
  last X = Some x ->
  last (nlp x) = Some tok ->
  pos_ tok = lit "VERB" ->
  stat self !! text tok = Some (t, a, b, c) ->
  exists (i : nat) (p : str) (best : Z),
    [a; b; c] !! i = Some best /\
    prepositions !! i = Some p /\
    (forall (j : nat) v, [a; b; c] !! j = Some v ->
       v <= best /\ ((j < i)%nat -> v < best)) /\
    transform nlp self X =
      if best =? 0 then Ok (X ++ [p])
      else factor ← PyNum.truediv t best;
           Ok (if PyNum.float_le_int factor (threshold self)
               then X ++ [p] else X).
Proof.
  intros HX Hdoc Hpos Hrec.
  rewrite (transform_verb_record self X x tok _ HX Hdoc Hpos Hrec).
  cbn [tuple_to_list tail].
  destruct (argmax_cases a b c) as [(Hi & ?)|[(Hi & ?)|(Hi & ?)]];
    cbv zeta in Hi; rewrite Hi;
    [ exists 0%nat, (lit "on"), a
    | exists 1%nat, (lit "at"), b
    | exists 2%nat, (lit "in"), c ];
    (split; [reflexivity|]); (split; [reflexivity|]);
    (split;
     [ intros [|[|[|j]]] v Hv; simplify_eq/=; lia
     | cbn [Nat.add tuple_get tuple_to_list nth Nat.sub prepositions];
       match goal with |- context [ ?n =? 0 ] => destruct (n =? 0) end;
       [ cbn; rewrite Z.leb_refl; reflexivity
       | destruct (PyNum.truediv _ _) as [f|e]; cbn; [|reflexivity];
         destruct (PyNum.float_le_int f _); reflexivity ] ]).
Qed.

(** [int / int] returns when the divisor is not zero and the dividend
    is below [2^1023] in absolute value. *)
Lemma truediv_in_range (t c : Z) :
  c <> 0 -> Z.abs t < 2 ^ 1023 -> exists f, PyNum.truediv t c = Ok f.
Proof.
  intros Hc Ht. unfold PyNum.truediv.
  destruct (Z.eqb_spec c 0) as [|_]; [done|].
  assert (Hlt : 2 ^ 1023 < 2 ^ 1024 - 2 ^ 970) by (vm_compute; reflexivity).
  revert Hlt Ht.
  generalize (2 ^ 1024 - 2 ^ 970), (2 ^ 1023). intros M B Hlt Ht.
  destruct (Z.leb_spec (M * Z.abs c) (Z.abs t)); [nia|by eexists].
Qed.

(** C3: for a non-empty token sequence whose last token the engine
    tags VERB and which has a record [(t, a, b, c)], [transform] picks
    the first position [i] of the largest of [a], [b], [c] and the
    preposition [p] at that position; when that largest count [best]
    is not zero the factor is [t / best] and [p] is appended exactly
    when the factor is at most the threshold; when [best] is zero the
    factor is the threshold and [p] is appended. *)
Theorem transform_decision self (X : list str) x tok t a b c :
  last X = Some x ->
  last (nlp x) = Some tok ->
  pos_ tok = lit "VERB" ->
  stat self !! text tok = Some (t, a, b, c) ->
  exists (i : nat) (p : str) (best : Z),
    [a; b; c] !! i = Some best /\
    prepositions !! i = Some p /\
    (forall (j : nat) v, [a; b; c] !! j = Some v ->
       v <= best /\ ((j < i)%nat -> v < best)) /\
    (best <> 0 ->
     transform nlp self X =
       factor ← PyNum.truediv t best;
       Ok (if PyNum.float_le_int factor (threshold self)
           then X ++ [p] else X)) /\
    (best = 0 ->
     PyNum.num_le_int (PyNum.Int (threshold self)) (threshold self) = true /\
     transform nlp self X = Ok (X ++ [p])).
Proof.
  intros HX Hdoc Hpos Hrec.
  destruct (transform_selects self X x tok t a b c HX Hdoc Hpos Hrec)
    as (i & p & best & Hi & Hp & Hmax & Heq).
  exists i, p, best.
  split; [done|]. split; [done|]. split; [done|]. split.
  - intros Hne. rewrite Heq. by destruct (Z.eqb_spec best 0).
  - intros ->. split; [apply Z.leb_refl|]. by rewrite Heq.
Qed.

(** C9: [transform] returns its input or its input followed by one of
    [on], [at], [in], whatever the input and the engine, on every
    table whose totals are within the range of [int / int]. *)
Theorem transform_frame self (X : list str) :
  Spec.within_float_range (stat self) ->
  transform nlp self X = Ok X \/
  exists p, p ∈ prepositions /\ transform nlp self X = Ok (X ++ [p]).
Proof.
  intros Hrange.
  destruct (last X) as [x|] eqn:HX;
    [|left; unfold transform; by rewrite HX].
  destruct (last (nlp x)) as [tok|] eqn:Hdoc;
    [|left; unfold transform; by rewrite HX, Hdoc].
  destruct (decide (pos_ tok = lit "VERB")) as [Hpos|Hpos]; cycle 1.
  { left. unfold transform. rewrite HX, Hdoc. unfold str_eqb.
    by rewrite bool_decide_eq_false_2. }
  destruct (stat self !! text tok) as [[[[t a] b] c]|] eqn:Hrec; cycle 1.
  { left. unfold transform. rewrite HX, Hdoc, Hpos, Hrec.
    unfold str_eqb. by rewrite bool_decide_eq_true_2. }
  destruct (transform_selects self X x tok t a b c HX Hdoc Hpos Hrec)
    as (i & p & best & _ & Hp & _ & Heq).
  assert (Hin : p ∈ prepositions) by (eapply list_elem_of_lookup_2; eauto).
  rewrite Heq. destruct (Z.eqb_spec best 0) as [|Hne]; [right; eauto|].
  destruct (truediv_in_range t best Hne) as [f ->].
  { apply (Hrange _ _ Hrec). }
  cbn. destruct (PyNum.float_le_int f _); [right|left]; eauto.
Qed.

End TransformFacts.

(** C2: fitted on the scenario corpus, the table maps [work] to
    [(2, 2, 0, 0)] and has no key [relax]; with threshold 27 and an
    engine that tags [work] as VERB, [transform] turns [i work] into
    [i work on]. *)
Theorem restoration_scenario (nlp : str -> list OmittedPrepositions.token)
  (self : OmittedPrepositions.t) :
  OmittedPrepositions.threshold self = 27 ->
  last (nlp (lit "work"))
  = Some {| OmittedPrepositions.text := lit "work";
            OmittedPrepositions.pos_ := lit "VERB" |} ->
  let fitted := OmittedPrepositions.fit self Scenario.corpus in
  OmittedPrepositions.stat fitted !! lit "work" = Some (2, 2, 0, 0) /\
  OmittedPrepositions.stat fitted !! lit "relax" = None /\
  OmittedPrepositions.transform nlp fitted [lit "i"; lit "work"]
  = Ok [lit "i"; lit "work"; lit "on"].
Proof.
  intros Hthr Hnlp fitted.
  assert (Hwork : OmittedPrepositions.stat fitted !! lit "work"
                  = Some (2, 2, 0, 0)) by (vm_compute; reflexivity).
  split; [exact Hwork|]. split; [vm_compute; reflexivity|].
  rewrite (transform_verb_record nlp fitted [lit "i"; lit "work"]
             (lit "work") _ _ eq_refl Hnlp eq_refl Hwork).
  change (OmittedPrepositions.threshold fitted)
    with (OmittedPrepositions.threshold self).
  rewrite Hthr. vm_compute. reflexivity.
Qed.

(** The scenario with the one-token VERB tagger and a fresh instance. *)
Lemma restoration_scenario_witness :
  OmittedPrepositions.stat Scenario.fitted !! lit "work" = Some (2, 2, 0, 0) /\
  OmittedPrepositions.stat Scenario.fitted !! lit "relax" = None /\
  OmittedPrepositions.transform Scenario.verb_tagger Scenario.fitted
    [lit "i"; lit "work"]
  = Ok [lit "i"; lit "work"; lit "on"].
Proof.
  apply (restoration_scenario Scenario.verb_tagger Scenario.fresh);
    reflexivity.
Defined.

(** The decision on the record of [work] in the fitted scenario table. *)
Lemma transform_decision_witness :
  exists (i : nat) (p : str) (best : Z),
    [2; 0; 0] !! i = Some best /\
    OmittedPrepositions.prepositions !! i = Some p /\
    (forall (j : nat) v, [2; 0; 0] !! j = Some v ->
       v <= best /\ ((j < i)%nat -> v < best)) /\
    (best <> 0 ->
     OmittedPrepositions.transform Scenario.verb_tagger Scenario.fitted
       [lit "i"; lit "work"] =
       factor ← PyNum.truediv 2 best;
       Ok (if PyNum.float_le_int factor 27
           then [lit "i"; lit "work"] ++ [p] else [lit "i"; lit "work"])) /\
    (best = 0 ->
     PyNum.num_le_int (PyNum.Int 27) 27 = true /\
     OmittedPrepositions.transform Scenario.verb_tagger Scenario.fitted
       [lit "i"; lit "work"] = Ok ([lit "i"; lit "work"] ++ [p])).
Proof.
  apply (transform_decision Scenario.verb_tagger Scenario.fitted
           [lit "i"; lit "work"] (lit "work")
           {| OmittedPrepositions.text := lit "work";
              OmittedPrepositions.pos_ := lit "VERB" |} 2 2 0 0);
    vm_compute; reflexivity.
Defined.

(** The frame property on the fitted scenario table. *)
Lemma transform_frame_witness :
  OmittedPrepositions.transform Scenario.verb_tagger Scenario.fitted
    [lit "i"; lit "work"] = Ok [lit "i"; lit "work"] \/
  exists p, p ∈ OmittedPrepositions.prepositions /\
    OmittedPrepositions.transform Scenario.verb_tagger Scenario.fitted
      [lit "i"; lit "work"] = Ok ([lit "i"; lit "work"] ++ [p]).
Proof.
  apply (transform_frame Scenario.verb_tagger Scenario.fitted).
  unfold Spec.within_float_range.
  apply (bool_decide_unpack _). vm_compute. exact I.
Defined.

(** ** OmittedPrepositions.save and OmittedPrepositions.load *)

Section StorageFacts.

Import OmittedPrepositions.


Lemma fit_storage_path self X : storage_path (fit self X) = storage_path self.
Proof. reflexivity. Qed.





(** C7: with a configured location and no artifact file, [load]
    raises, and so does the constructor; with no location configured,
    [load] and [save] change neither the instance nor the files. *)
Theorem load_without_artifact self arg fs :
  (forall path : str,
     path <> [] ->
     storage_path (set_storage_path self arg) = Some path ->
     fs !! os_path_join path file_name = None ->
     load self arg fs = Raise FileNotFoundError /\
     init (Some path) fs = Raise FileNotFoundError) /\
  (truthy arg = false ->
   truthy (storage_path self) = false ->
   load self arg fs = Ok self /\ save self arg fs = Ok (self, fs)).
Proof.
  split.
  - intros [|c path] Hne Hpath Hfile; [done|]. split.
    + unfold load. rewrite Hpath. cbv zeta. by rewrite Hfile.
    + unfold init, load, set_storage_path.
      cbn [truthy storage_path]. cbv zeta. by rewrite Hfile.
  - intros Harg Hself. unfold load, save, set_storage_path. rewrite Harg.
    by destruct (storage_path self) as [[|? ?]|].
Qed.

(** [./models] without an artifact, and an instance without a storage
    location. *)
Lemma load_without_artifact_witness :
  (load Scenario.fresh (Some Scenario.models) ∅ = Raise FileNotFoundError /\
   init (Some Scenario.models) ∅ = Raise FileNotFoundError) /\
  (load Scenario.fitted None ∅ = Ok Scenario.fitted /\
   save Scenario.fitted None ∅ = Ok (Scenario.fitted, ∅)).
Proof.
  split.
  - apply (proj1 (load_without_artifact Scenario.fresh
                    (Some Scenario.models) ∅) Scenario.models).
    + discriminate.
    + reflexivity.
    + reflexivity.
  - apply (proj2 (load_without_artifact Scenario.fitted None ∅));
      reflexivity.
Defined.

End StorageFacts.

(** ** Tokens of [split] *)

Section SplitFacts.

Import Spec.

(** Every token that [split] returns is non-empty and free of
    whitespace. *)
Lemma split_from_tokens (s tok : str) :
  clean tok ->
  Forall (fun t => t <> [] /\ clean t) (split_from tok s).
Proof.
  revert tok. induction s as [|c s IH]; intros tok Htok; simpl.
  - destruct tok; constructor; [by split|constructor].
  - destruct (is_space c) eqn:Hc.
    + destruct tok as [|d tok]; [by apply IH; constructor|].
      constructor; [done|]. apply IH. constructor.
    + apply IH. apply Forall_app. split; [done|]. by constructor.
Qed.

Lemma split_tokens (s : str) :
  Forall (fun t => t <> [] /\ clean t) (split s).
Proof. apply split_from_tokens. constructor. Qed.

Lemma lstrip_clean (t : str) : clean t -> lstrip t = t.
Proof. intros Ht. destruct Ht as [|c t Hc _]; [done|]. simpl. by rewrite Hc. Qed.

Lemma strip_clean (t : str) : clean t -> strip t = t.
Proof.
  intros Ht. unfold strip. rewrite (lstrip_clean t Ht).
  rewrite lstrip_clean by (by apply Forall_rev).
  apply rev_involutive.
Qed.

End SplitFacts.

(** ** GeneralizeTimeOfTheDay *)

Section TimeOfTheDayFacts.

Import GeneralizeTimeOfTheDay.

(** The filter of the comprehension keeps every token of [split]. *)
Lemma filter_nonblank_split (X : str) :
  List.filter nonblank (split X) = split X.
Proof.
  pose proof (split_tokens X) as H.
  induction H as [|t l [Hne Ht] _ IH]; [done|].
  simpl. unfold nonblank at 1. rewrite (strip_clean t Ht).
  destruct t; [done|]. by rewrite IH.
Qed.

(** C10: [transform] relabels token by token; it leaves the tokens
    [day] and [bedtime] as they are, the synonym tuple holding the
    fused string [bedtimeday] instead, and it replaces [daytime],
    [daylight], [morning], [evening], [night] and [tonight] by the
    label. *)
Theorem time_of_the_day_fused_synonym :
  (forall X, transform X = join (lit " ") (List.map relabel (split X))) /\
  relabel (lit "day") = lit "day" /\
  relabel (lit "bedtime") = lit "bedtime" /\
  str_in (lit "day") synonyms = false /\
  str_in (lit "bedtime") synonyms = false /\
  str_in (lit "bedtimeday") synonyms = true /\
  Forall (fun t => relabel t = _label)
    [lit "daytime"; lit "daylight"; lit "morning"; lit "evening";
     lit "night"; lit "tonight"].
Proof.
  split.
  { intros X. unfold transform. by rewrite filter_nonblank_split. }
  repeat split; try (vm_compute; reflexivity).
  repeat constructor; vm_compute; reflexivity.
Qed.

End TimeOfTheDayFacts.

(** ** Decontract *)

Section DecontractFacts.

Variable CONTRACTIONS : gmap str str.

(** C8: in the string [can't, can't] the first token, [can't,], is not
    a key of the table, and [transform] changes it all the same: the
    expansion of the key [can't] is substituted inside it. *)
Theorem decontract_rewrites_other_token (e : str) :
  CONTRACTIONS !! lit "can't" = Some e ->
  e <> [] ->
  CONTRACTIONS !! lit "can't," = None ->
  split (lit "can't, can't") = [lit "can't,"; lit "can't"] /\
  Decontract.transform CONTRACTIONS (lit "can't, can't")
  = e ++ lit ", " ++ e.
Proof.
  intros He Hne Hcomma. split; [reflexivity|].
  unfold Decontract.transform.
  change (replace [8217%N] (lit "'") (lit "can't, can't"))
    with (lit "can't, can't").
  change (split (lit "can't, can't")) with [lit "can't,"; lit "can't"].
  cbn [foldl]. unfold Decontract.expand. rewrite Hcomma, He.
  destruct e as [|c d]; [done|].
  generalize (c :: d). intros e. cbn.
  by rewrite app_nil_r.
Qed.

(** The same substitution breaks a longer key that contains a shorter
    one: once [i'd] is expanded everywhere, the token [i'd've] is gone
    from the string and its own expansion is never written. *)
Lemma decontract_breaks_longer_key :
  CONTRACTIONS !! lit "i'd" = Some (lit "i would") ->
  CONTRACTIONS !! lit "i'd've" = Some (lit "i would have") ->
  Decontract.transform CONTRACTIONS (lit "i'd i'd've")
  = lit "i would i would've".
Proof.
  intros Hshort Hlong. unfold Decontract.transform.
  change (replace [8217%N] (lit "'") (lit "i'd i'd've"))
    with (lit "i'd i'd've").
  change (split (lit "i'd i'd've")) with [lit "i'd"; lit "i'd've"].
  cbn [foldl]. unfold Decontract.expand. rewrite Hshort, Hlong.
  vm_compute. reflexivity.
Qed.

End DecontractFacts.

(** The table with the single entry [can't]. *)
Lemma decontract_rewrites_other_token_witness :
  split (lit "can't, can't") = [lit "can't,"; lit "can't"] /\
  Decontract.transform Scenario.one_contraction (lit "can't, can't")
  = lit "cannot" ++ lit ", " ++ lit "cannot".
Proof.
  apply (decontract_rewrites_other_token Scenario.one_contraction
           (lit "cannot")).
  - reflexivity.
  - discriminate.
  - reflexivity.
Defined.

(** ** The pattern of OmittedPrepositions *)

Section PatternFacts.

Import Re.

Lemma star_spec (a : atom) (k : str -> bool) (s : str) :
  star a k s = true <->
  exists s1 s2, s = s1 ++ s2 /\
    Forall (fun c => atom_matches a c = true) s1 /\ k s2 = true.
Proof.
  induction s as [|c s IH]; simpl.
  - rewrite orb_false_r. split.
    + intros Hk. by exists [], [].
    + intros (s1 & s2 & Heq & _ & Hk).
      symmetry in Heq. apply app_eq_nil in Heq as [_ ->]. done.
  - rewrite orb_true_iff, andb_true_iff, IH. split.
    + intros [Hk|[Hc (s1 & s2 & -> & Hs1 & Hk)]].
      * by exists [], (c :: s).
      * exists (c :: s1), s2. split; [done|]. split; [by constructor|done].
    + intros ([|d s1] & s2 & Heq & Hs1 & Hk); simpl in Heq.
      * left. by subst.
      * right. injection Heq as -> ->.
        apply Forall_cons in Hs1 as [Hd Hs1]. eauto 6.
Qed.

Lemma word_spec (w : str) (s : str) (k : str -> bool) :
  run (word w) s k = true <-> exists s2, s = w ++ s2 /\ k s2 = true.
Proof.
  revert s. induction w as [|c w IH]; intros s; simpl.
  - split; [eauto|]. by intros (s2 & -> & Hk).
  - destruct s as [|d s].
    + split; [done|]. by intros (s2 & Heq & _).
    + rewrite andb_true_iff, IH, N.eqb_eq. split.
      * intros [-> (s2 & -> & Hk)]. eauto.
      * intros (s2 & Heq & Hk). injection Heq as -> ->. eauto.
Qed.

Lemma dots_no_newline (l : str) :
  Forall (fun c => atom_matches Dot c = true) l <-> 10%N ∉ l.
Proof.
  induction l as [|c l IH]; simpl.
  - split; [intros _; apply not_elem_of_nil|constructor].
  - rewrite Forall_cons, not_elem_of_cons, IH, negb_true_iff, N.eqb_neq.
    intuition congruence.
Qed.

Lemma spaces_snoc (l : str) :
  Forall (fun c => atom_matches (Chr 32) c = true) l -> 32%N :: l = l ++ [32%N].
Proof.
  induction 1 as [|c l Hc _ IH]; [done|].
  simpl in Hc. apply N.eqb_eq in Hc as ->. simpl. by rewrite <- IH.
Qed.

Lemma spaces_no_newline (l : str) :
  Forall (fun c => atom_matches (Chr 32) c = true) l -> 10%N ∉ l.
Proof.
  induction 1 as [|c l Hc _ IH]; [apply not_elem_of_nil|].
  simpl in Hc. apply N.eqb_eq in Hc as ->.
  apply not_elem_of_cons. split; [done|exact IH].
Qed.

(** The rest of the pattern after the preposition: spaces then any
    characters, or the end of the string. *)
Lemma after_preposition (s : str) :
  run (Alt (Plus (Chr 32)) Eol) s
    (fun s' => star Dot (fun rest => match rest with [] => true | _ => false end) s')
  = true <->
  (10%N ∉ s) /\ (s = [] \/ exists s', s = 32%N :: s').
Proof.
  assert (Hfinal : forall x : str,
    star Dot (fun rest => match rest with [] => true | _ => false end) x = true
    <-> 10%N ∉ x).
  { intros x. rewrite star_spec, <- dots_no_newline. split.
    - intros (s1 & [|] & -> & Hs1 & Hk); [by rewrite app_nil_r|done].
    - intros Hx. exists x, []. by rewrite app_nil_r. }
  cbn [run]. rewrite orb_true_iff, andb_true_iff, Hfinal. split.
  - intros [Hplus|[Heol Hs]].
    + destruct s as [|c s]; [done|].
      apply andb_true_iff in Hplus as [Hc Hstar].
      simpl in Hc. apply N.eqb_eq in Hc as ->.
      apply star_spec in Hstar as (s1 & s2 & -> & Hs1 & Hk).
      apply Hfinal in Hk. split; [|eauto].
      apply not_elem_of_cons. split; [done|].
      apply not_elem_of_app. split; [by apply spaces_no_newline|done].
    + split; [done|]. left. destruct s as [|c [|d s]]; try done.
      simpl in Heol. apply N.eqb_eq in Heol as ->.
      exfalso. apply Hs. constructor.
  - intros [Hs [->|[s' ->]]].
    + right. done.
    + left. rewrite andb_true_iff. split; [done|].
      apply star_spec. exists [], s'. repeat split; [constructor|].
      apply Hfinal. by apply not_elem_of_cons in Hs as [_ Hs].
Qed.

(** One alternative of the pattern, as a condition on the string. *)
Lemma regex_for_spec (p s : str) :
  10%N ∉ p ->
  fullmatch (OmittedPrepositions.regex_for p) s = true <->
  (10%N ∉ s) /\
  exists before after,
    s = before ++ [32%N] ++ p ++ after /\
    (after = [] \/ exists after', after = 32%N :: after').
Proof.
  intros Hp. unfold fullmatch, OmittedPrepositions.regex_for.
  cbn [run]. rewrite star_spec. split.
  - intros (s1 & s2 & -> & Hs1 & Hk).
    destruct s2 as [|c s2]; [done|].
    apply andb_true_iff in Hk as [Hc Hstar].
    simpl in Hc. apply N.eqb_eq in Hc as ->.
    apply star_spec in Hstar as (sp & s3 & -> & Hsp & Hk).
    apply word_spec in Hk as (s4 & -> & Hk).
    apply after_preposition in Hk as [Hs4 Hshape].
    apply dots_no_newline in Hs1. split.
    + rewrite not_elem_of_app, not_elem_of_cons, !not_elem_of_app.
      auto using spaces_no_newline.
    + exists (s1 ++ sp), s4. split; [|done].
      rewrite <- !app_assoc. f_equal.
      rewrite app_comm_cons, (spaces_snoc sp Hsp), <- !app_assoc. done.
  - intros (Hs & before & after & -> & Hshape).
    rewrite !not_elem_of_app in Hs. destruct Hs as (Hb & _ & _ & Ha).
    exists before, (32%N :: p ++ after). split; [done|].
    split; [by apply dots_no_newline|].
    rewrite andb_true_iff. split; [done|].
    apply star_spec. exists [], (p ++ after). repeat split; [constructor|].
    apply word_spec. exists after. split; [done|].
    by apply after_preposition.
Qed.

(** The strings that [fit] retains are those with a candidate
    preposition between a space and a space or the end, and no
    newline. *)
Lemma retained_spec (txt : str) :
  Spec.retained txt = true <-> Spec.spaced_preposition txt.
Proof.
  unfold Spec.retained, Spec.spaced_preposition.
  unfold OmittedPrepositions.preposition_regex, OmittedPrepositions.regex_list.
  unfold fullmatch. cbn [alts run].
  rewrite !orb_true_iff.
  change (run (OmittedPrepositions.regex_for ?p) txt _)
    with (fullmatch (OmittedPrepositions.regex_for p) txt).
  rewrite !regex_for_spec
    by (apply dots_no_newline; repeat constructor).
  unfold OmittedPrepositions.prepositions. split.
  - intros [(Hn & b & a & Heq & Hs)|[(Hn & b & a & Heq & Hs)|(Hn & b & a & Heq & Hs)]];
      (split; [done|]).
    + exists b, (lit "on"), a. split; [apply list_elem_of_here|done].
    + exists b, (lit "at"), a.
      split; [apply list_elem_of_further, list_elem_of_here|done].
    + exists b, (lit "in"), a.
      split; [do 2 apply list_elem_of_further; apply list_elem_of_here|done].
  - intros (Hn & b & p & a & Hp & Heq & Hs).
    repeat (apply elem_of_cons in Hp as [->|Hp]); [| | |by apply elem_of_nil in Hp].
    + left. eauto 6.
    + right. left. eauto 6.
    + right. right. eauto 6.
Qed.

End PatternFacts.

(** ** OmittedPrepositions.fit *)

Section FitFacts.

Import OmittedPrepositions Spec.

Lemma pair_is_nonneg k p t u : 0 <= pair_is k p t u.
Proof. unfold pair_is. destruct (_ && _); lia. Qed.

Lemma followed_by_nonneg k p tokens : 0 <= followed_by k p tokens.
Proof.
  induction tokens as [|t [|u tokens] IH]; simpl; try lia.
  pose proof (pair_is_nonneg k p t u). simpl in IH. lia.
Qed.

Lemma occurrences_nonneg k tokens : 0 <= occurrences k tokens.
Proof. induction tokens as [|t tokens IH]; simpl; [lia|]. destruct (str_eqb t k); lia. Qed.

Lemma followed_by_le_occurrences k p tokens :
  followed_by k p tokens <= occurrences k tokens.
Proof.
  induction tokens as [|t [|u tokens] IH].
  - simpl. lia.
  - simpl. destruct (str_eqb t k); lia.
  - change (pair_is k p t u + followed_by k p (u :: tokens)
            <= (if str_eqb t k then 1 else 0) + occurrences k (u :: tokens)).
    unfold pair_is. destruct (str_eqb t k), (str_eqb u p); cbn [andb]; lia.
Qed.

Lemma merge_zero o : merge o 0 0 0 = o.
Proof. destruct o as [[[[n1 n2] n3] n4]|]; simpl; [|done]. by rewrite !Z.add_0_r. Qed.

Lemma merge_merge o a b c a' b' c' :
  0 <= a -> 0 <= b -> 0 <= c -> 0 <= a' -> 0 <= b' -> 0 <= c' ->
  merge (merge o a b c) a' b' c' = merge o (a + a') (b + b') (c + c').
Proof.
  intros. destruct o as [[[[n1 n2] n3] n4]|]; simpl.
  - by rewrite !Z.add_assoc.
  - repeat match goal with
           | |- context [ (?x =? 0) ] => destruct (Z.eqb_spec x 0)
           end; simpl; try done; try (exfalso; lia);
      repeat match goal with
           | |- context [ (?x =? 0) ] => destruct (Z.eqb_spec x 0)
           end; simpl; try done; try (exfalso; lia); f_equal; repeat f_equal; lia.
Qed.


(** Membership in and position within [prepositions]. *)
Lemma preposition_cases (u : str) :
  (u = lit "on" /\ index_of u prepositions = Some 0%nat) \/
  (u = lit "at" /\ index_of u prepositions = Some 1%nat) \/
  (u = lit "in" /\ index_of u prepositions = Some 2%nat) \/
  (u <> lit "on" /\ u <> lit "at" /\ u <> lit "in" /\
   str_in u prepositions = false).
Proof.
  destruct (decide (u = lit "on")) as [->|Hon]; [by left|].
  destruct (decide (u = lit "at")) as [->|Hat]; [by right; left|].
  destruct (decide (u = lit "in")) as [->|Hin]; [by right; right; left|].
  do 3 right. repeat split; try done.
  unfold str_in, prepositions, existsb, str_eqb.
  by rewrite !bool_decide_eq_false_2.
Qed.

Lemma str_eqb_refl (k : str) : str_eqb k k = true.
Proof. by apply bool_decide_eq_true_2. Qed.

Lemma str_eqb_ne (t k : str) : t <> k -> str_eqb t k = false.
Proof. apply bool_decide_eq_false_2. Qed.

(** One round of the inner loop, seen from the key [k]. *)
Lemma count_pair_lookup tokens st (i : nat) (t u k : str) :
  tokens !! i = Some t ->
  count_pair tokens st (i, u) !! k
  = merge (st !! k) (pair_is k (lit "on") t u) (pair_is k (lit "at") t u)
      (pair_is k (lit "in") t u).
Proof.
  intros Ht. unfold count_pair, pair_is.
  destruct (preposition_cases u) as [[-> Hi]|[[-> Hi]|[[-> Hi]|(Hon & Hat & Hin & Hno)]]].
  4: { rewrite Hno. cbn [negb].
       rewrite (str_eqb_ne u _ Hon), (str_eqb_ne u _ Hat), (str_eqb_ne u _ Hin).
       rewrite !andb_false_r. by rewrite merge_zero. }
  all: rewrite Ht, Hi;
    change (negb (str_in _ prepositions)) with false; cbv iota;
    destruct (decide (t = k)) as [->|Hne];
    [ rewrite str_eqb_refl;
      destruct (st !! k) as [[[[n1 n2] n3] n4]|] eqn:Hk;
      rewrite lookup_insert_eq; cbn; try done; by rewrite !Z.add_0_r
    | rewrite (str_eqb_ne t k Hne); cbn [andb];
      rewrite merge_zero;
      by destruct (st !! t); rewrite lookup_insert_ne ].
Qed.

(** The inner loop over [enumerate(tokens[1:])], started after the
    tokens [pre]. *)
Lemma count_pair_loop (rest pre : list str) (t : str) st (k : str) :
  foldl (count_pair (pre ++ t :: rest)) st
    (imap (fun i x => (length pre + i, x)%nat) rest) !! k
  = merge (st !! k)
      (followed_by k (lit "on") (t :: rest))
      (followed_by k (lit "at") (t :: rest))
      (followed_by k (lit "in") (t :: rest)).
Proof.
  revert pre t st. induction rest as [|u rest IH]; intros pre t st.
  - simpl. by rewrite merge_zero.
  - cbn [imap foldl].
    replace (pre ++ t :: u :: rest) with ((pre ++ [t]) ++ u :: rest)
      by (by rewrite <- app_assoc).
    erewrite (imap_ext _ (fun i x => (length (pre ++ [t]) + i, x)%nat)); cycle 1.
    { intros i x _. simpl. rewrite length_app. simpl. f_equal. lia. }
    rewrite IH.
    rewrite (count_pair_lookup _ st _ t u k); cycle 1.
    { rewrite Nat.add_0_r, <- app_assoc. apply list_lookup_middle. done. }
    rewrite merge_merge; auto using pair_is_nonneg, followed_by_nonneg.
Qed.

Lemma count_pairs_lookup st (txt k : str) :
  count_pairs st txt !! k
  = merge (st !! k) (pairs_in k (lit "on") txt) (pairs_in k (lit "at") txt)
      (pairs_in k (lit "in") txt).
Proof.
  unfold count_pairs, pairs_in, retained.
  destruct (Re.fullmatch preposition_regex txt); cbn [negb].
  - destruct (split txt) as [|t rest]; [by rewrite merge_zero|].
    apply (count_pair_loop rest [] t).
  - by rewrite merge_zero.
Qed.

Lemma pairs_in_nonneg k p txt : 0 <= pairs_in k p txt.
Proof.
  unfold pairs_in. destruct (retained txt); [apply followed_by_nonneg|lia].
Qed.

Lemma pairs_in_le_occurrences k p txt : pairs_in k p txt <= occurrences_in k txt.
Proof.
  unfold pairs_in, occurrences_in. destruct (retained txt).
  - apply followed_by_le_occurrences.
  - apply occurrences_nonneg.
Qed.

Lemma total_of_nonneg f X : (forall txt, 0 <= f txt) -> 0 <= total_of f X.
Proof.
  intros Hf. induction X as [|txt X IH]; simpl; [lia|].
  specialize (Hf txt). lia.
Qed.

Lemma total_of_le f g X :
  (forall txt, f txt <= g txt) -> total_of f X <= total_of g X.
Proof.
  intros Hfg. induction X as [|txt X IH]; simpl; [lia|].
  specialize (Hfg txt). lia.
Qed.

(** The first loop of [fit], seen from the key [k]. *)
Lemma first_pass_lookup (X : list str) st (k : str) :
  foldl count_pairs st X !! k
  = merge (st !! k)
      (total_of (pairs_in k (lit "on")) X)
      (total_of (pairs_in k (lit "at")) X)
      (total_of (pairs_in k (lit "in")) X).
Proof.
  revert st. induction X as [|txt X IH]; intros st.
  - simpl. by rewrite merge_zero.
  - cbn [foldl]. rewrite IH, count_pairs_lookup.
    rewrite merge_merge;
      auto using pairs_in_nonneg, total_of_nonneg.
Qed.

(** The second loop of [fit], seen from the key [k]: the keys stay,
    the total of [k] grows by its occurrences. *)
Lemma count_total_loop (tokens : list str) st (k : str) :
  foldl count_total st tokens !! k
  = add_total (occurrences k tokens) <$> st !! k.
Proof.
  revert st. induction tokens as [|t tokens IH]; intros st.
  - simpl. destruct (st !! k) as [[[[n1 n2] n3] n4]|]; simpl; [|done].
    by rewrite Z.add_0_r.
  - cbn [foldl occurrences]. rewrite IH. unfold count_total.
    destruct (decide (t = k)) as [->|Hne].
    + rewrite str_eqb_refl.
      destruct (st !! k) as [[[[n1 n2] n3] n4]|] eqn:Hk.
      * rewrite lookup_insert_eq. cbn. do 4 f_equal. lia.
      * by rewrite Hk.
    + rewrite (str_eqb_ne t k Hne), Z.add_0_l.
      destruct (st !! t); [by rewrite lookup_insert_ne|done].
Qed.

Lemma add_total_add n m v : add_total n (add_total m v) = add_total (m + n) v.
Proof. destruct v as [[[n1 n2] n3] n4]. simpl. by rewrite Z.add_assoc. Qed.

Lemma second_pass_lookup (X : list str) st (k : str) :
  foldl count_totals st X !! k
  = add_total (total_of (occurrences_in k) X) <$> st !! k.
Proof.
  revert st. induction X as [|txt X IH]; intros st.
  - simpl. destruct (st !! k) as [[[[n1 n2] n3] n4]|]; simpl; [|done].
    by rewrite Z.add_0_r.
  - cbn [foldl total_of foldr]. rewrite IH. unfold count_totals.
    rewrite count_total_loop.
    destruct (st !! k) as [v|]; [|done]. simpl.
    by rewrite add_total_add.
Qed.

(** The table after [fit], key by key. *)
Lemma fit_stat_lookup (X : list str) (k : str) :
  fit_stat X !! k
  = let a := total_of (pairs_in k (lit "on")) X in
    let b := total_of (pairs_in k (lit "at")) X in
    let c := total_of (pairs_in k (lit "in")) X in
    if (a =? 0) && (b =? 0) && (c =? 0) then None
    else Some (total_of (occurrences_in k) X, a, b, c).
Proof.
  unfold fit_stat. rewrite second_pass_lookup, first_pass_lookup.
  rewrite lookup_empty. cbv zeta. simpl merge.
  by destruct (_ && _).
Qed.

Lemma occurrences_le_length k tokens :
  occurrences k tokens <= Z.of_nat (length tokens).
Proof.
  induction tokens as [|t tokens IH]; [simpl; lia|].
  cbn [occurrences length]. destruct (str_eqb t k); lia.
Qed.

(** A table fitted on a corpus of fewer than [2^1023] tokens is within
    the range of [int / int]. *)
Lemma fit_within_float_range (X : list str) :
  total_of tokens_in X < 2 ^ 1023 -> within_float_range (fit_stat X).
Proof.
  intros Hsize k [[[t a] b] c]. rewrite fit_stat_lookup. cbv zeta.
  destruct (_ && _); [done|]. intros [= <- _ _ _]. cbn [tuple_get tuple_to_list nth].
  pose proof (total_of_nonneg (occurrences_in k) X
                (fun txt => occurrences_nonneg k (split txt))).
  pose proof (total_of_le (occurrences_in k) tokens_in X
                (fun txt => occurrences_le_length k (split txt))).
  lia.
Qed.

End FitFacts.

Section FitClaims.

Import OmittedPrepositions Spec.

(** C6: after [fit], every record has non-negative fields, a total
    that is at least each of its three preposition counters, and one
    preposition counter that is positive. *)
Theorem fit_record_invariant self (X : list str) (k : str) (t a b c : Z) :
  stat (fit self X) !! k = Some (t, a, b, c) ->
  0 <= t /\ 0 <= a /\ 0 <= b /\ 0 <= c /\
  Z.max a (Z.max b c) <= t /\
  (0 < a \/ 0 < b \/ 0 < c).
Proof.
  cbn [fit stat]. rewrite fit_stat_lookup. cbv zeta.
  pose proof (total_of_nonneg (pairs_in k (lit "on")) X (pairs_in_nonneg k _)).
  pose proof (total_of_nonneg (pairs_in k (lit "at")) X (pairs_in_nonneg k _)).
  pose proof (total_of_nonneg (pairs_in k (lit "in")) X (pairs_in_nonneg k _)).
  pose proof (total_of_le _ _ X (pairs_in_le_occurrences k (lit "on"))).
  pose proof (total_of_le _ _ X (pairs_in_le_occurrences k (lit "at"))).
  pose proof (total_of_le _ _ X (pairs_in_le_occurrences k (lit "in"))).
  destruct (Z.eqb_spec (total_of (pairs_in k (lit "on")) X) 0);
    destruct (Z.eqb_spec (total_of (pairs_in k (lit "at")) X) 0);
    destruct (Z.eqb_spec (total_of (pairs_in k (lit "in")) X) 0);
    cbn [andb]; intros Heq; simplify_eq; lia.
Qed.

(** The record of [work] in the scenario. *)
Lemma fit_record_invariant_witness :
  0 <= 2 /\ 0 <= 2 /\ 0 <= 0 /\ 0 <= 0 /\
  Z.max 2 (Z.max 0 0) <= 2 /\
  (0 < 2 \/ 0 < 0 \/ 0 < 0).
Proof.
  apply (fit_record_invariant Scenario.fresh Scenario.corpus (lit "work")).
  vm_compute. reflexivity.
Defined.

(** C4, as the code has it: a training string adds to the preposition
    counters exactly when it has no newline and one of [on], [at],
    [in] stands in it after a space character and before a space
    character or the end; it then adds one count for every adjacent
    pair of whitespace tokens whose second token is that preposition.
    The total of a key is the number of its occurrences as a
    whitespace token in the whole corpus, and a token is a key exactly
    when one of its preposition counters is not zero. *)
Theorem fit_counts (X : list str) (k : str) :
  (forall txt p,
     (spaced_preposition txt ->
      pairs_in k p txt = followed_by k p (split txt)) /\
     (~ spaced_preposition txt -> pairs_in k p txt = 0)) /\
  fit_stat X !! k
  = (let a := total_of (pairs_in k (lit "on")) X in
     let b := total_of (pairs_in k (lit "at")) X in
     let c := total_of (pairs_in k (lit "in")) X in
     if (a =? 0) && (b =? 0) && (c =? 0) then None
     else Some (total_of (occurrences_in k) X, a, b, c)).
Proof.
  split; [|apply fit_stat_lookup].
  intros txt p. unfold pairs_in.
  destruct (retained txt) eqn:Hret; split; try done.
  - intros Hno. exfalso. apply Hno. by apply retained_spec.
  - intros Hyes. apply retained_spec in Hyes. congruence.
Qed.

(** A retained string, a string that is not retained, and the record
    of [work] in the scenario. *)
Lemma fit_counts_witness :
  pairs_in (lit "work") (lit "on") (lit "i work on monday")
  = followed_by (lit "work") (lit "on") (split (lit "i work on monday")) /\
  pairs_in (lit "work") (lit "on") Scenario.tab_delimited = 0 /\
  fit_stat Scenario.corpus !! lit "work"
  = (let a := total_of (pairs_in (lit "work") (lit "on")) Scenario.corpus in
     let b := total_of (pairs_in (lit "work") (lit "at")) Scenario.corpus in
     let c := total_of (pairs_in (lit "work") (lit "in")) Scenario.corpus in
     if (a =? 0) && (b =? 0) && (c =? 0) then None
     else Some (total_of (occurrences_in (lit "work")) Scenario.corpus, a, b, c)).
Proof.
  pose proof (fit_counts Scenario.corpus (lit "work")) as [Hpairs Hstat].
  split; [|split; [|exact Hstat]].
  - apply (proj1 (Hpairs (lit "i work on monday") (lit "on"))).
    apply retained_spec. vm_compute. reflexivity.
  - apply (proj2 (Hpairs Scenario.tab_delimited (lit "on"))).
    intros Hyes. apply retained_spec in Hyes. vm_compute in Hyes. discriminate.
Defined.

(** C4, as stated, fails: in [tab_delimited] the token [on] is a
    whitespace-delimited token and follows the token [work], yet the
    string is not retained and [fit] counts nothing. *)
Lemma tab_delimited_not_counted :
  split Scenario.tab_delimited = [lit "i"; lit "work"; lit "on"; lit "monday"] /\
  has_preposition_token Scenario.tab_delimited = true /\
  followed_by (lit "work") (lit "on") (split Scenario.tab_delimited) = 1 /\
  retained Scenario.tab_delimited = false /\
  fit_stat [Scenario.tab_delimited] = ∅.
Proof. repeat split; vm_compute; reflexivity. Qed.

End FitClaims.

(** * Further properties of the stages *)

(** ** Tokenizing and joining *)

Section TokenFacts.

Import Spec.

(** A token list as [split] produces it. *)
Lemma split_from_clean (t : str) :
  clean t -> forall tok rest, split_from tok (t ++ rest) = split_from (tok ++ t) rest.
Proof.
  induction 1 as [|c t Hc _ IH]; intros tok rest.
  - by rewrite app_nil_r.
  - simpl. rewrite Hc, IH. by rewrite <- app_assoc.
Qed.

Lemma split_from_space (tok : str) (c : char) (rest : str) :
  is_space c = true -> tok <> [] ->
  split_from tok (c :: rest) = tok :: split rest.
Proof. intros Hc Htok. simpl. rewrite Hc. by destruct tok. Qed.

(** [split] undoes [' '.join] on tokens that are non-empty and free of
    whitespace. *)
Lemma split_join (l : list str) :
  Forall (fun t => t <> [] /\ clean t) l -> split (join (lit " ") l) = l.
Proof.
  induction 1 as [|x l [Hne Hx] Hl IH]; [done|].
  destruct l as [|y l].
  - simpl. unfold split. rewrite <- (app_nil_r x) at 1.
    rewrite split_from_clean by done. simpl. by destruct x.
  - change (join (lit " ") (x :: y :: l))
      with (x ++ 32%N :: join (lit " ") (y :: l)).
    unfold split at 1. rewrite split_from_clean by done.
    rewrite split_from_space by done. by rewrite IH.
Qed.

Lemma lstrip_head (s : str) :
  (forall c s', s = c :: s' -> is_space c = false) -> lstrip s = s.
Proof.
  intros H. destruct s as [|c s]; [done|].
  simpl. by rewrite (H c s).
Qed.

(** [strip] leaves a string that neither starts nor ends with
    whitespace. *)
Lemma strip_ends (s : str) :
  (forall c s', s = c :: s' -> is_space c = false) ->
  (forall c s', s = s' ++ [c] -> is_space c = false) ->
  strip s = s.
Proof.
  intros Hhead Hlast. unfold strip. rewrite (lstrip_head s Hhead).
  rewrite lstrip_head; [apply rev_involutive|].
  intros c r Hrev. apply (Hlast c (rev r)).
  by rewrite <- (rev_involutive s), Hrev.
Qed.

Lemma join_head (l : list str) (c : char) (s' : str) :
  Forall (fun t => t <> [] /\ clean t) l ->
  join (lit " ") l = c :: s' -> is_space c = false.
Proof.
  intros Hl. destruct Hl as [|x l [Hne Hx] _]; [done|].
  destruct Hx as [|d x Hd _]; [done|].
  destruct l; simpl; by intros [= <- _].
Qed.

Lemma join_last (l : list str) (c : char) (s' : str) :
  Forall (fun t => t <> [] /\ clean t) l ->
  join (lit " ") l = s' ++ [c] -> is_space c = false.
Proof.
  intros Hl. revert s'.
  induction Hl as [|x l [Hne Hx] Hl IH]; intros s'.
  - by destruct s'.
  - destruct l as [|y l].
    + simpl. intros ->. apply Forall_app in Hx as [_ Hc].
      by apply Forall_cons in Hc as [Hc _].
    + change (join (lit " ") (x :: y :: l))
        with (x ++ 32%N :: join (lit " ") (y :: l)).
      destruct (exists_last (l:=join (lit " ") (y :: l))) as (s'' & d & Heq).
      { apply Forall_cons in Hl as [[Hy _] _]. destruct y; [done|]. by destruct l. }
      rewrite Heq. intros H.
      replace (x ++ 32%N :: s'' ++ [d]) with ((x ++ 32%N :: s'') ++ [d]) in H
        by (by rewrite <- app_assoc).
      apply app_inj_tail in H as [_ ->]. by apply (IH s'').
Qed.

(** On tokens of that kind [JoinTokens] is [Detokenize]: the final
    [strip] has nothing to remove. *)
Lemma join_tokens_clean (l : list str) :
  Forall (fun t => t <> [] /\ clean t) l ->
  JoinTokens.transform l = Detokenize.transform l.
Proof.
  intros Hl. unfold JoinTokens.transform, Detokenize.transform.
  apply strip_ends; intros c s' Heq;
    [by eapply join_head|by eapply join_last].
Qed.

(** Tokenizing what [Detokenize] built gives the tokens back, when
    each is non-empty and free of whitespace. *)
Theorem tokenize_detokenize (l : list str) :
  Forall (fun t => t <> [] /\ clean t) l ->
  TokenizeSplit.transform (Detokenize.transform l) = l /\
  TokenizeSplit.transform (JoinTokens.transform l) = l.
Proof.
  intros Hl. rewrite join_tokens_clean by done.
  unfold TokenizeSplit.transform, Detokenize.transform.
  by rewrite filter_nonblank_split, split_join.
Qed.

(** [TokenizeSplit] returns the tokens of [split]: its filter drops
    nothing, and every token is non-empty and free of whitespace. *)
Theorem tokenize_is_split (X : str) :
  TokenizeSplit.transform X = split X /\
  Forall (fun t => t <> [] /\ clean t) (TokenizeSplit.transform X).
Proof.
  unfold TokenizeSplit.transform. rewrite filter_nonblank_split.
  split; [done|apply split_tokens].
Qed.

(** Tokenize, join, tokenize again: the second tokenization finds the
    same tokens, and joining them gives the same string. *)
Theorem tokenize_join_stable (X : str) :
  TokenizeSplit.transform (JoinTokens.transform (TokenizeSplit.transform X))
  = TokenizeSplit.transform X /\
  JoinTokens.transform
    (TokenizeSplit.transform (JoinTokens.transform (TokenizeSplit.transform X)))
  = JoinTokens.transform (TokenizeSplit.transform X).
Proof.
  assert (H : TokenizeSplit.transform
                (JoinTokens.transform (TokenizeSplit.transform X))
              = TokenizeSplit.transform X).
  { unfold TokenizeSplit.transform. rewrite !filter_nonblank_split.
    rewrite join_tokens_clean by apply split_tokens.
    unfold Detokenize.transform. apply split_join, split_tokens. }
  split; [exact H|by rewrite H].
Qed.

End TokenFacts.

(** The tokens [i] and [work]. *)
Lemma tokenize_detokenize_witness :
  TokenizeSplit.transform (Detokenize.transform [lit "i"; lit "work"])
  = [lit "i"; lit "work"] /\
  TokenizeSplit.transform (JoinTokens.transform [lit "i"; lit "work"])
  = [lit "i"; lit "work"].
Proof.
  apply (tokenize_detokenize [lit "i"; lit "work"]).
  repeat constructor; discriminate.
Defined.

(** ** The label-generalization stages *)

Section GeneralizeFacts.

Import Spec.

(** A stage that maps every token to a token: its output tokenizes
    into the mapped tokens of its input. *)
Lemma split_join_map (f : str -> str) (X : str) :
  (forall t, t <> [] -> clean t -> f t <> [] /\ clean (f t)) ->
  split (join (lit " ") (List.map f (split X))) = List.map f (split X).
Proof.
  intros Hf. apply split_join.
  pose proof (split_tokens X) as H.
  induction H as [|t l [Hne Ht] _ IH]; simpl; constructor; auto.
Qed.

Lemma clean_decide (t : str) :
  forallb (fun c => negb (is_space c)) t = true -> clean t.
Proof.
  intros H. apply Forall_forall. intros c Hc.
  rewrite forallb_forall in H. apply negb_true_iff, H.
  by apply list_elem_of_In.
Qed.

Ltac unfold_relabel :=
  unfold GeneralizeDayNumber.relabel, GeneralizeYear.relabel,
    GeneralizeTimeOfTheDay.relabel, GeneralizeDayOfWeek.relabel,
    GeneralizeMonth.relabel.

(** Relabelling keeps a token a token: every label is non-empty and
    free of whitespace. *)
Ltac relabel_keeps_token :=
  intros t Hne Ht; unfold_relabel;
  match goal with |- context [ if ?b then _ else _ ] => destruct b end;
  [ split; [discriminate|apply clean_decide; vm_compute; reflexivity]
  | done ].

(** Relabelling twice is relabelling once: no label is itself
    relabelled. *)
Ltac relabel_twice :=
  intros t; unfold_relabel;
  match goal with
  | |- context [ if ?b then _ else _ ] =>
      destruct b eqn:Hb; [vm_compute; reflexivity|by rewrite Hb]
  end.

(** The five stages keep the number and the order of the tokens: the
    output tokenizes into the relabelled tokens of the input. *)
Theorem generalize_tokens (X : str) :
  split (GeneralizeDayNumber.transform X)
  = List.map GeneralizeDayNumber.relabel (split X) /\
  split (GeneralizeYear.transform X)
  = List.map GeneralizeYear.relabel (split X) /\
  split (GeneralizeTimeOfTheDay.transform X)
  = List.map GeneralizeTimeOfTheDay.relabel (split X) /\
  split (GeneralizeDayOfWeek.transform X)
  = List.map GeneralizeDayOfWeek.relabel (split X) /\
  split (GeneralizeMonth.transform X)
  = List.map GeneralizeMonth.relabel (split X).
Proof.
  unfold GeneralizeDayNumber.transform, GeneralizeYear.transform,
    GeneralizeTimeOfTheDay.transform, GeneralizeDayOfWeek.transform,
    GeneralizeMonth.transform.
  rewrite !filter_nonblank_split.
  repeat split; apply split_join_map; relabel_keeps_token.
Qed.

(** A second run of a generalization stage changes nothing: no label
    is itself a day number, a year or a synonym. *)
Theorem generalize_idempotent (X : str) :
  GeneralizeDayNumber.transform (GeneralizeDayNumber.transform X)
  = GeneralizeDayNumber.transform X /\
  GeneralizeYear.transform (GeneralizeYear.transform X)
  = GeneralizeYear.transform X /\
  GeneralizeTimeOfTheDay.transform (GeneralizeTimeOfTheDay.transform X)
  = GeneralizeTimeOfTheDay.transform X /\
  GeneralizeDayOfWeek.transform (GeneralizeDayOfWeek.transform X)
  = GeneralizeDayOfWeek.transform X /\
  GeneralizeMonth.transform (GeneralizeMonth.transform X)
  = GeneralizeMonth.transform X.
Proof.
  unfold GeneralizeDayNumber.transform, GeneralizeYear.transform,
    GeneralizeTimeOfTheDay.transform, GeneralizeDayOfWeek.transform,
    GeneralizeMonth.transform.
  rewrite !filter_nonblank_split.
  repeat split;
    (rewrite split_join_map by relabel_keeps_token);
    rewrite List.map_map; f_equal; apply List.map_ext; relabel_twice.
Qed.

End GeneralizeFacts.

(** ** The patterns of GeneralizeDayNumber and GeneralizeYear *)

Section NumberPatternFacts.

Local Open Scope N_scope.

Ltac bool_to_prop :=
  repeat first
    [ rewrite andb_true_iff | rewrite orb_true_iff
    | rewrite N.leb_le | rewrite N.eqb_eq | rewrite orb_false_r
    | rewrite andb_true_r ].

(** The tokens that [GeneralizeDayNumber] replaces: [1], [2], [3]; a
    character of [0-2] and a digit; [3] and one of [0], [,], [1].  So
    the single digits [4] to [9] stay, and so does [32], while [00]
    and [3,] are replaced. *)
Theorem day_number_tokens (token : str) :
  GeneralizeDayNumber.relabel token = GeneralizeDayNumber._label <->
  token = GeneralizeDayNumber._label \/
  (exists c, token = [c] /\ 49 <= c <= 51) \/
  (exists c d, token = [c; d] /\
     ((48 <= c <= 50 /\ 48 <= d <= 57) \/
      (c = 51 /\ (d = 48 \/ d = 44 \/ d = 49)))).
Proof.
  unfold GeneralizeDayNumber.relabel.
  destruct (ReClass.fullmatch GeneralizeDayNumber.day_regex token) eqn:Hm.
  - split; [intros _|done]. right. revert Hm.
    unfold ReClass.fullmatch, GeneralizeDayNumber.day_regex.
    destruct token as [|c [|d [|e token]]]; cbn; try done.
    + bool_to_prop. intros H. left. exists c. split; [done|lia].
    + bool_to_prop. intros H. right. exists c, d. split; [done|lia].
    + rewrite !andb_false_r. done.
  - split; [auto|]. intros [H|[(c & -> & Hc)|(c & d & -> & Hcd)]]; [done| |];
      exfalso; apply not_true_iff_false in Hm; apply Hm;
      unfold ReClass.fullmatch, GeneralizeDayNumber.day_regex; cbn;
      bool_to_prop; lia.
Qed.

(** The tokens that [GeneralizeYear] replaces: the four-digit decimal
    numerals of the numbers 1000 to 2999. *)
Theorem year_tokens (token : str) :
  GeneralizeYear.relabel token = GeneralizeYear._label <->
  token = GeneralizeYear._label \/
  exists n, 1000 <= n <= 2999 /\
    token = [48 + n / 1000; 48 + (n / 100) mod 10;
             48 + (n / 10) mod 10; 48 + n mod 10].
Proof.
  unfold GeneralizeYear.relabel.
  destruct (ReClass.fullmatch GeneralizeYear.year_regex token) eqn:Hm.
  - split; [intros _|done]. right. revert Hm.
    unfold ReClass.fullmatch, GeneralizeYear.year_regex.
    destruct token as [|a [|b [|c [|d [|e token]]]]]; cbn;
      rewrite ?andb_false_r; try done.
    bool_to_prop. intros H.
    exists ((a - 48) * 1000 + (b - 48) * 100 + (c - 48) * 10 + (d - 48)).
    split; [lia|].
    repeat f_equal; zify; Z.to_euclidean_division_equations; lia.
  - split; [auto|]. intros [H|(n & Hn & ->)]; [done|].
    exfalso. apply not_true_iff_false in Hm. apply Hm.
    unfold ReClass.fullmatch, GeneralizeYear.year_regex. cbn.
    bool_to_prop. zify. Z.to_euclidean_division_equations. lia.
Qed.

End NumberPatternFacts.

(** ** The stages that delete characters *)

Section CleanFacts.

Lemma delete_chars_idempotent (deleted X : str) :
  delete_chars deleted (delete_chars deleted X) = delete_chars deleted X.
Proof.
  unfold delete_chars. induction X as [|c X IH]; [done|].
  simpl. destruct (negb _) eqn:Hc; [|done]. simpl. by rewrite Hc, IH.
Qed.

Lemma delete_chars_comm (d1 d2 X : str) :
  delete_chars d1 (delete_chars d2 X) = delete_chars d2 (delete_chars d1 X).
Proof.
  unfold delete_chars. induction X as [|c X IH]; [done|].
  simpl. destruct (negb (existsb (N.eqb c) d2)) eqn:H2,
    (negb (existsb (N.eqb c) d1)) eqn:H1; simpl; rewrite ?H1, ?H2, ?IH; done.
Qed.

(** Deleting a set after a subset of it is deleting the set. *)
Lemma delete_chars_absorb (small large X : str) :
  (forall c, existsb (N.eqb c) small = true -> existsb (N.eqb c) large = true) ->
  delete_chars large (delete_chars small X) = delete_chars large X.
Proof.
  intros Hsub. unfold delete_chars. induction X as [|c X IH]; [done|].
  simpl. destruct (existsb (N.eqb c) small) eqn:Hs; simpl.
  - by rewrite (Hsub c Hs).
  - by rewrite IH.
Qed.

Lemma delete_chars_gone (deleted X : str) (c : char) :
  c ∈ delete_chars deleted X -> c ∈ X /\ existsb (N.eqb c) deleted = false.
Proof.
  unfold delete_chars. rewrite list_elem_of_In, filter_In, <- list_elem_of_In.
  intros [Hin Hc]. split; [done|]. by apply negb_true_iff.
Qed.

Lemma existsb_eqb_elem_of (c : char) (l : str) :
  existsb (N.eqb c) l = false -> c ∉ l.
Proof.
  intros H Hin. apply not_true_iff_false in H. apply H.
  apply existsb_exists. exists c.
  split; [by apply list_elem_of_In|apply N.eqb_refl].
Qed.

(** The three cleaners are idempotent, and any two of them commute. *)
Theorem cleaners_idempotent_commute (X : str) :
  CleanPunct.transform (CleanPunct.transform X) = CleanPunct.transform X /\
  CleanPunctLight.transform (CleanPunctLight.transform X)
  = CleanPunctLight.transform X /\
  CleanDigits.transform (CleanDigits.transform X) = CleanDigits.transform X /\
  CleanDigits.transform (CleanPunct.transform X)
  = CleanPunct.transform (CleanDigits.transform X) /\
  CleanDigits.transform (CleanPunctLight.transform X)
  = CleanPunctLight.transform (CleanDigits.transform X).
Proof.
  unfold CleanPunct.transform, CleanPunctLight.transform, CleanDigits.transform.
  repeat split; auto using delete_chars_idempotent, delete_chars_comm.
Qed.

(** [CleanPunctLight] deletes a subset of what [CleanPunct] deletes:
    run before or after [CleanPunct], it adds nothing to it. *)
Theorem clean_punct_absorbs_light (X : str) :
  CleanPunct.transform (CleanPunctLight.transform X) = CleanPunct.transform X /\
  CleanPunctLight.transform (CleanPunct.transform X) = CleanPunct.transform X.
Proof.
  assert (Hall : forallb
    (fun d => existsb (N.eqb d) GeneralizeTimeOfTheDay.punctuation)
    CleanPunctLight.deleted = true) by (vm_compute; reflexivity).
  assert (Hsub : forall c,
    existsb (N.eqb c) CleanPunctLight.deleted = true ->
    existsb (N.eqb c) GeneralizeTimeOfTheDay.punctuation = true).
  { intros c. rewrite existsb_exists.
    intros (d & Hd & Hcd). apply N.eqb_eq in Hcd as <-.
    rewrite forallb_forall in Hall. by apply Hall. }
  unfold CleanPunct.transform, CleanPunctLight.transform. split.
  - by apply delete_chars_absorb.
  - rewrite delete_chars_comm. by apply delete_chars_absorb.
Qed.

(** What a cleaner returns has none of the characters it deletes, and
    only characters of its input. *)
Theorem cleaners_remove (X : str) (c : char) :
  (c ∈ CleanPunct.transform X ->
   c ∈ X /\ c ∉ GeneralizeTimeOfTheDay.punctuation) /\
  (c ∈ CleanPunctLight.transform X -> c ∈ X /\ c ∉ CleanPunctLight.deleted) /\
  (c ∈ CleanDigits.transform X -> c ∈ X /\ ~ (48 <= c <= 57)%N).
Proof.
  split; [|split]; intros H; apply delete_chars_gone in H as [Hin Hc];
    (split; [done|]); try (by apply existsb_eqb_elem_of).
  change string_digits
    with [48; 49; 50; 51; 52; 53; 54; 55; 56; 57]%N in Hc.
  cbn [existsb] in Hc.
  repeat (apply orb_false_iff in Hc as [?%N.eqb_neq Hc]). lia.
Qed.

End CleanFacts.

(** ** StopWords and OneChar *)

Section MaskFacts.

Lemma one_char_mask_twice (t : str) : OneChar.mask (OneChar.mask t) = OneChar.mask t.
Proof.
  unfold OneChar.mask at 2 3.
  destruct (_ || _) eqn:Hc; [|reflexivity].
  unfold OneChar.mask. by rewrite Hc.
Qed.

Lemma stop_words_mask_cases (t : str) :
  (t = lit "op" /\ StopWords.mask t = UNK_LABEL) \/
  (t <> lit "op" /\ StopWords.mask t = t).
Proof.
  unfold StopWords.mask, StopWords.stop_words, str_in, existsb, str_eqb.
  destruct (decide (t = lit "op")) as [->|Hne]; [left|right].
  - split; [done|]. by rewrite bool_decide_eq_true_2.
  - split; [done|]. by rewrite bool_decide_eq_false_2.
Qed.

(** The two masking stages commute, each is idempotent and each keeps
    the number of tokens. *)
Theorem masks_commute (X : list str) :
  OneChar.transform (StopWords.transform X)
  = StopWords.transform (OneChar.transform X) /\
  OneChar.transform (OneChar.transform X) = OneChar.transform X /\
  StopWords.transform (StopWords.transform X) = StopWords.transform X /\
  length (OneChar.transform X) = length X /\
  length (StopWords.transform X) = length X.
Proof.
  unfold OneChar.transform, StopWords.transform.
  rewrite !List.map_map, !length_map. repeat split; apply List.map_ext; intros t.
  - destruct (stop_words_mask_cases t) as [[-> ->]|[Hne ->]]; [reflexivity|].
    unfold OneChar.mask. destruct (_ || _); [|reflexivity].
    by destruct (stop_words_mask_cases t) as [[? _]|[_ ->]].
  - apply one_char_mask_twice.
  - by destruct (stop_words_mask_cases t) as [[-> ->]|[Hne ->]];
      [reflexivity|destruct (stop_words_mask_cases t) as [[? _]|[_ ->]]].
Qed.

(** After [OneChar] every token is longer than one character, or is
    [i] or [a]; a token longer than one character is never changed. *)
Theorem one_char_result (X : list str) :
  Forall (fun t => (1 < length t)%nat \/ t = lit "i" \/ t = lit "a")
    (OneChar.transform X) /\
  (Forall (fun t => (1 < length t)%nat) X -> OneChar.transform X = X).
Proof.
  unfold OneChar.transform. split.
  - apply Forall_forall. intros t Ht. apply list_elem_of_In, in_map_iff in Ht as (u & <- & _).
    unfold OneChar.mask. destruct (Nat.ltb_spec 1 (length u)); simpl; [by left|].
    unfold str_in, existsb, str_eqb.
    destruct (decide (u = lit "i")) as [->|Hi]; [by right; left|].
    destruct (decide (u = lit "a")) as [->|Ha]; [by right; right|].
    rewrite !bool_decide_eq_false_2 by done. simpl. left.
    unfold UNK_LABEL. simpl. lia.
  - induction 1 as [|t X Ht _ IH]; [done|]. simpl. rewrite IH. f_equal.
    unfold OneChar.mask. by destruct (Nat.ltb_spec 1 (length t)); [|lia].
Qed.

End MaskFacts.

(** ** Pipeline.transform *)

Section PipelineTransformFacts.

Context {stage data : Type}.
Variable stage_fit : stage -> data -> option data -> result stage.
Variable stage_transform : stage -> data -> result data.

(** Running two pipelines one after the other is running their
    concatenation: the value is threaded through, and the first
    exception ends the run. *)
Theorem transform_app (p q : list (Pipeline.entry stage)) (X : data) :
  Pipeline.transform stage_transform (p ++ q) X
  = X' ← Pipeline.transform stage_transform p X;
    Pipeline.transform stage_transform q X'.
Proof.
  revert X. induction p as [|[name s|s] p IH]; intros X; [done| |done].
  cbn [app Pipeline.transform].
  destruct (stage_transform s X) as [X1|e]; [apply IH|done].
Qed.


End PipelineTransformFacts.

(** With stages that always return, [Pipeline.transform] on pairs is
    the left fold of the stage functions over the input, in the order
    of the list. *)
Theorem transform_fold {stage data : Type} (f : stage -> data -> data)
  (pipe : list (str * stage)) (X : data) :
  Pipeline.transform (fun s x => Ok (f s x))
    (List.map (fun p => Pipeline.Pair (fst p) (snd p)) pipe) X
  = Ok (foldl (fun x p => f (snd p) x) X pipe).
Proof.
  revert X. induction pipe as [|[name s] pipe IH]; intros X; [done|].
  cbn [List.map Pipeline.transform foldl fst snd]. apply IH.
Qed.

(** A run on the stage objects of two classes that inherit
    [PipelineStage.fit], without names. *)
Lemma fit_objects_broadcast_witness :
  exists pipe',
    Pipeline.fit SomePipeline.stage_fit
      (List.map Pipeline.Obj [SomePipeline.LowerText; SomePipeline.StopWords])
      [lit "i work on monday"] None
    = (List.map (fun s => Pipeline.Call s [lit "i work on monday"] None)
         [SomePipeline.LowerText; SomePipeline.StopWords],
       Ok pipe').
Proof.
  apply (fit_objects_broadcast SomePipeline.stage_fit).
  repeat constructor; eexists; reflexivity.
Defined.


(** ** More on OmittedPrepositions.fit *)

Section FitMoreFacts.

Import OmittedPrepositions Spec Reading.

Lemma total_of_perm f X Y : X ≡ₚ Y -> total_of f X = total_of f Y.
Proof. induction 1; simpl; lia. Qed.

(** The fitted table does not depend on the order of the training
    strings. *)
Theorem fit_order_independent (X Y : list str) :
  X ≡ₚ Y -> fit_stat X = fit_stat Y.
Proof.
  intros HXY. apply map_eq. intros k. rewrite !fit_stat_lookup.
  by rewrite !(total_of_perm _ X Y HXY).
Qed.

Lemma total_of_pos f X :
  0 < total_of f X -> exists txt, txt ∈ X /\ 0 < f txt.
Proof.
  induction X as [|txt X IH]; simpl; [lia|]. intros H.
  destruct (Z.ltb_spec 0 (f txt)).
  - exists txt. split; [apply list_elem_of_here|done].
  - destruct IH as (txt' & Hin & Hpos); [lia|].
    exists txt'. split; [by apply list_elem_of_further|done].
Qed.

Lemma followed_by_pos k p tokens :
  0 < followed_by k p tokens ->
  exists before after, tokens = before ++ k :: p :: after.
Proof.
  induction tokens as [|t [|u tokens] IH]; try (simpl; lia).
  change (followed_by k p (t :: u :: tokens))
    with (pair_is k p t u + followed_by k p (u :: tokens)).
  destruct (decide (t = k /\ u = p)) as [[-> ->]|Hno].
  - intros _. by exists [], tokens.
  - assert (Hzero : pair_is k p t u = 0).
    { unfold pair_is, str_eqb.
      destruct (decide (t = k)) as [->|Ht];
        [|by rewrite (bool_decide_eq_false_2 (t = k))].
      destruct (decide (u = p)) as [->|Hu]; [by destruct Hno|].
      by rewrite (bool_decide_eq_false_2 (u = p)), andb_false_r. }
    rewrite Hzero. intros H.
    destruct IH as (before & after & Heq); [lia|].
    exists (t :: before), after. by rewrite Heq.
Qed.

(** Every key of the fitted table stands, in some retained training
    string, immediately before one of the three prepositions. *)
Theorem fit_keys (X : list str) (k : str) :
  is_Some (fit_stat X !! k) ->
  exists txt p before after,
    txt ∈ X /\ retained txt = true /\ p ∈ prepositions /\
    split txt = before ++ k :: p :: after.
Proof.
  rewrite fit_stat_lookup. cbv zeta.
  pose proof (total_of_nonneg (pairs_in k (lit "on")) X (pairs_in_nonneg k _)).
  pose proof (total_of_nonneg (pairs_in k (lit "at")) X (pairs_in_nonneg k _)).
  pose proof (total_of_nonneg (pairs_in k (lit "in")) X (pairs_in_nonneg k _)).
  assert (Hfind : forall p, p ∈ prepositions -> 0 < total_of (pairs_in k p) X ->
    exists txt p before after,
      txt ∈ X /\ retained txt = true /\ p ∈ prepositions /\
      split txt = before ++ k :: p :: after).
  { intros p Hp Hpos. apply total_of_pos in Hpos as (txt & Hin & Hpos).
    unfold pairs_in in Hpos. destruct (retained txt) eqn:Hret; [|lia].
    apply followed_by_pos in Hpos as (before & after & Heq).
    by exists txt, p, before, after. }
  destruct (Z.eqb_spec (total_of (pairs_in k (lit "on")) X) 0);
    [|intros _; apply (Hfind (lit "on")); [apply list_elem_of_here|lia]].
  destruct (Z.eqb_spec (total_of (pairs_in k (lit "at")) X) 0);
    [|intros _; apply (Hfind (lit "at"));
      [apply list_elem_of_further, list_elem_of_here|lia]].
  destruct (Z.eqb_spec (total_of (pairs_in k (lit "in")) X) 0);
    [|intros _; apply (Hfind (lit "in"));
      [do 2 apply list_elem_of_further; apply list_elem_of_here|lia]].
  cbn. by intros [? ?].
Qed.


Lemma split_from_app_space (a : str) (c : char) (b tok : str) :
  is_space c = true ->
  split_from tok (a ++ c :: b) = split_from tok a ++ split b.
Proof.
  intros Hc. revert tok. induction a as [|d a IH]; intros tok.
  - simpl. rewrite Hc. by destruct tok.
  - simpl. destruct (is_space d).
    + destruct tok; [apply IH|]. simpl. f_equal. apply IH.
    + apply IH.
Qed.

Lemma preposition_is_token (p : str) :
  p ∈ prepositions ->
  p <> [] /\ clean p /\ str_in p prepositions = true.
Proof.
  intros Hp. repeat (apply elem_of_cons in Hp as [->|Hp]);
    [| | |by apply elem_of_nil in Hp];
    (split; [discriminate|split; [|reflexivity]]);
    repeat constructor.
Qed.

(** The half of the whole-word reading that holds: a retained string
    has one of the three prepositions among its whitespace tokens. *)
Theorem retained_has_token (txt : str) :
  retained txt = true ->
  has_preposition_token txt = true /\
  exists p, p ∈ prepositions /\ p ∈ split txt.
Proof.
  intros Hret. apply retained_spec in Hret
    as (_ & before & p & after & Hp & -> & Hshape).
  destruct (preposition_is_token p Hp) as (Hne & Hclean & Hin).
  assert (Hsplit : p ∈ split (before ++ [32%N] ++ p ++ after)).
  { unfold split at 1. cbn [app].
    rewrite split_from_app_space by reflexivity.
    apply elem_of_app. right.
    assert (Hp1 : split p = [p]).
    { apply (split_join [p]). by repeat constructor. }
    destruct Hshape as [->|[after' ->]].
    - rewrite app_nil_r, Hp1. apply list_elem_of_here.
    - unfold split at 1. rewrite split_from_app_space by reflexivity.
      fold (split p). rewrite Hp1. apply list_elem_of_here. }
  split; [|by exists p].
  unfold has_preposition_token. apply existsb_exists.
  exists p. split; [by apply list_elem_of_In|done].
Qed.

Lemma total_of_zero f (X : list str) :
  (forall txt, txt ∈ X -> f txt = 0) -> total_of f X = 0.
Proof.
  induction X as [|txt X IH]; [done|]. intros H. simpl.
  rewrite (H txt) by apply list_elem_of_here.
  rewrite IH; [done|]. intros t Ht. apply H. by apply list_elem_of_further.
Qed.

(** Fit, then transform: when the text of the last token never stands
    before a preposition in a retained training string, the tokens
    come back unchanged, whatever the tag and the threshold. *)
Theorem transform_without_evidence (nlp : str -> list token) self
  (X : list str) (T : list str) (x : str) (tok : token) :
  last T = Some x ->
  last (nlp x) = Some tok ->
  (forall txt p, txt ∈ X -> retained txt = true -> p ∈ prepositions ->
     followed_by (text tok) p (split txt) = 0) ->
  transform nlp (fit self X) T = Ok T.
Proof.
  intros HT Hdoc Hnone.
  assert (Hrec : stat (fit self X) !! text tok = None).
  { cbn [fit stat]. rewrite fit_stat_lookup. cbv zeta.
    assert (Hp : forall p, p ∈ prepositions ->
                 total_of (pairs_in (text tok) p) X = 0).
    { intros p Hp. apply total_of_zero. intros txt Hin. unfold pairs_in.
      destruct (retained txt) eqn:Hret; [by apply Hnone|done]. }
    rewrite !Hp; [done| | |].
    - do 2 apply list_elem_of_further. apply list_elem_of_here.
    - apply list_elem_of_further, list_elem_of_here.
    - apply list_elem_of_here. }
  unfold transform. rewrite HT, Hdoc, Hrec. by destruct (negb _).
Qed.


Lemma pair_is_one_preposition (k t u : str) :
  pair_is k (lit "on") t u + pair_is k (lit "at") t u + pair_is k (lit "in") t u
  <= (if str_eqb t k then 1 else 0).
Proof.
  unfold pair_is. destruct (str_eqb t k); cbn [andb]; [|lia].
  unfold str_eqb.
  destruct (decide (u = lit "on")) as [->|Hon]; [by vm_compute|].
  rewrite (bool_decide_eq_false_2 (u = lit "on")) by done.
  destruct (decide (u = lit "at")) as [->|Hat]; [by vm_compute|].
  rewrite (bool_decide_eq_false_2 (u = lit "at")) by done.
  destruct (bool_decide (u = lit "in")); lia.
Qed.

Lemma followed_by_sum_le_occurrences (k : str) (tokens : list str) :
  followed_by k (lit "on") tokens + followed_by k (lit "at") tokens
  + followed_by k (lit "in") tokens <= occurrences k tokens.
Proof.
  induction tokens as [|t [|u tokens] IH].
  - simpl. lia.
  - simpl. destruct (str_eqb t k); lia.
  - change (followed_by k ?p (t :: u :: tokens))
      with (pair_is k p t u + followed_by k p (u :: tokens)).
    change (occurrences k (t :: u :: tokens))
      with ((if str_eqb t k then 1 else 0) + occurrences k (u :: tokens)).
    pose proof (pair_is_one_preposition k t u). lia.
Qed.

(** The total of a record is at least the sum of its three preposition
    counters: an occurrence of the key is counted for one preposition
    at most. *)
Theorem fit_total_bounds_sum self (X : list str) (k : str) (t a b c : Z) :
  stat (fit self X) !! k = Some (t, a, b, c) -> a + b + c <= t.
Proof.
  cbn [fit stat]. rewrite fit_stat_lookup. cbv zeta.
  destruct (_ && _); [done|]. intros [= <- <- <- <-].
  induction X as [|txt X IH]; [simpl; lia|].
  cbn [total_of foldr]. fold (total_of (pairs_in k (lit "on")) X).
  fold (total_of (pairs_in k (lit "at")) X).
  fold (total_of (pairs_in k (lit "in")) X).
  fold (total_of (occurrences_in k) X).
  unfold pairs_in at 1 3 5. unfold occurrences_in at 1.
  pose proof (followed_by_sum_le_occurrences k (split txt)).
  pose proof (occurrences_nonneg k (split txt)).
  destruct (retained txt); lia.
Qed.

End FitMoreFacts.

(** The scenario corpus and its reverse. *)
Lemma fit_order_independent_witness :
  OmittedPrepositions.fit_stat Scenario.corpus
  = OmittedPrepositions.fit_stat (rev Scenario.corpus).
Proof.
  apply (fit_order_independent Scenario.corpus (rev Scenario.corpus)).
  apply Permutation_rev.
Defined.

(** The key [work] of the scenario table. *)
Lemma fit_keys_witness :
  exists txt p before after,
    txt ∈ Scenario.corpus /\ Spec.retained txt = true /\
    p ∈ OmittedPrepositions.prepositions /\
    split txt = before ++ lit "work" :: p :: after.
Proof.
  apply (fit_keys Scenario.corpus (lit "work")).
  eexists. vm_compute. reflexivity.
Defined.

(** The string [i work on monday]. *)
Lemma retained_has_token_witness :
  Spec.has_preposition_token (lit "i work on monday") = true /\
  exists p, p ∈ OmittedPrepositions.prepositions /\
            p ∈ split (lit "i work on monday").
Proof.
  apply (retained_has_token (lit "i work on monday")).
  vm_compute. reflexivity.
Defined.

(** The token [relax] after fitting on the scenario corpus. *)
Lemma transform_without_evidence_witness :
  OmittedPrepositions.transform Scenario.verb_tagger Scenario.fitted
    [lit "i"; lit "relax"] = Ok [lit "i"; lit "relax"].
Proof.
  apply (transform_without_evidence Scenario.verb_tagger Scenario.fresh
           Scenario.corpus [lit "i"; lit "relax"] (lit "relax")
           {| OmittedPrepositions.text := lit "relax";
              OmittedPrepositions.pos_ := lit "VERB" |}).
  - reflexivity.
  - reflexivity.
  - intros txt p Htxt _ Hp.
    repeat (apply elem_of_cons in Htxt as [->|Htxt]);
      [| | |by apply elem_of_nil in Htxt];
      repeat (apply elem_of_cons in Hp as [->|Hp]);
      try (by apply elem_of_nil in Hp); vm_compute; reflexivity.
Defined.

(** The record of [work] in the scenario. *)
Lemma fit_total_bounds_sum_witness : 2 + 0 + 0 <= 2.
Proof.
  apply (fit_total_bounds_sum Scenario.fresh Scenario.corpus (lit "work")).
  vm_compute. reflexivity.
Defined.

(** The scenario corpus has nine tokens. *)
Lemma fit_within_float_range_witness :
  Spec.within_float_range (OmittedPrepositions.fit_stat Scenario.corpus).
Proof.
  apply (fit_within_float_range Scenario.corpus).
  vm_compute. reflexivity.
Defined.

(** ** More on Decontract *)

Section DecontractMoreFacts.

Import Reading.

Variable CONTRACTIONS : gmap str str.

(** Replacing a one-character string by a one-character string maps
    the characters one by one. *)
Lemma replace_char (a b : char) (X : str) :
  replace [a] [b] X = List.map (fun c => if (c =? a)%N then b else c) X.
Proof.
  unfold replace. induction X as [|c X IH]; [done|].
  cbn [replace_from is_prefix length Nat.sub List.map app].
  rewrite andb_true_r, (N.eqb_sym a c). destruct (c =? a)%N; by rewrite IH.
Qed.

(** A text none of whose tokens is a key comes back with its right
    single quotes turned into apostrophes and nothing else changed;
    no right single quote is left. *)
Theorem decontract_without_keys (X : str) :
  (forall token, token ∈ split (straighten X) -> CONTRACTIONS !! token = None) ->
  Decontract.transform CONTRACTIONS X = straighten X /\
  length (Decontract.transform CONTRACTIONS X) = length X /\
  8217%N ∉ Decontract.transform CONTRACTIONS X.
Proof.
  intros Hkeys.
  assert (Heq : Decontract.transform CONTRACTIONS X = straighten X).
  { unfold Decontract.transform. cbv zeta.
    change (lit "'") with [39%N]. rewrite replace_char.
    fold (straighten X).
    assert (Hloop : forall tokens Y,
      (forall token, token ∈ tokens -> CONTRACTIONS !! token = None) ->
      foldl (Decontract.expand CONTRACTIONS) Y tokens = Y).
    { induction tokens as [|t tokens IH]; intros Y Hnone; [done|].
      cbn [foldl]. unfold Decontract.expand at 2.
      rewrite (Hnone t) by apply list_elem_of_here.
      apply IH. intros token Hin. apply Hnone. by apply list_elem_of_further. }
    by apply Hloop. }
  rewrite Heq. split; [done|]. split.
  - unfold straighten. apply length_map.
  - unfold straighten. intros Hin.
    apply list_elem_of_In, in_map_iff in Hin as (c & Hc & _).
    by destruct (N.eqb_spec c 8217).
Qed.

End DecontractMoreFacts.

(** The table with the single key [can't] and a text without it. *)
Lemma decontract_without_keys_witness :
  Decontract.transform Scenario.one_contraction (lit "it is" ++ [8217%N] ++ lit "s")
  = Reading.straighten (lit "it is" ++ [8217%N] ++ lit "s") /\
  length (Decontract.transform Scenario.one_contraction
            (lit "it is" ++ [8217%N] ++ lit "s"))
  = length (lit "it is" ++ [8217%N] ++ lit "s") /\
  8217%N ∉ Decontract.transform Scenario.one_contraction
             (lit "it is" ++ [8217%N] ++ lit "s").
Proof.
  apply (decontract_without_keys Scenario.one_contraction).
  intros token Htoken.
  repeat (apply elem_of_cons in Htoken as [->|Htoken]);
    [| |by apply elem_of_nil in Htoken]; reflexivity.
Defined.

(** ** GeneralizeEnts *)

Section EntsFacts.

Import GeneralizeEnts Reading.

Variable ents_of : str -> list ent.
Variable ignore_ents : list str.

Lemma substitute_replacement (X : str) (e : ent) :
  substitute ignore_ents X e
  = take (start_char e) X ++ replacement ignore_ents e ++ drop (end_char e) X.
Proof. unfold substitute, replacement. by destruct (str_in _ _). Qed.

Lemma ordered_bound (ents : list ent) (pos len : nat) :
  ordered pos ents len -> (pos <= len)%nat.
Proof.
  revert pos. induction ents as [|e ents IH]; intros pos; [done|].
  intros (H1 & H2 & H3). apply IH in H3. lia.
Qed.

(** The loop over the reversed spans, for spans in text order from
    [pos] on: the text before [pos] is untouched, the rest is the
    left-to-right reading. *)
Lemma substitute_loop (X : str) (ents : list ent) (pos : nat) :
  ordered pos ents (length X) ->
  foldl (substitute ignore_ents) X (rev ents)
  = take pos X ++ render ignore_ents X pos ents.
Proof.
  revert pos. induction ents as [|e ents IH]; intros pos.
  - intros _. simpl. by rewrite take_drop.
  - intros (H1 & H2 & H3).
    pose proof (ordered_bound _ _ _ H3) as Hend.
    cbn [rev render]. rewrite foldl_app. cbn [foldl].
    rewrite (IH _ H3), substitute_replacement.
    rewrite take_app_le by (rewrite length_take; lia).
    rewrite take_take, Nat.min_l by lia.
    rewrite drop_app_length' by (rewrite length_take; lia).
    rewrite <- (take_drop pos (take (start_char e) X)) at 1.
    rewrite take_take, Nat.min_l by lia.
    rewrite <- app_assoc. f_equal. f_equal.
    rewrite take_drop_commute.
    by replace (pos + (start_char e - pos))%nat with (start_char e) by lia.
Qed.

(** Spans in text order, each within the text and none overlapping the
    next: replacing them from the last to the first gives the text
    read left to right with every span replaced by its label, or by
    its own text when the label is ignored. *)
Theorem generalize_ents_ordered (X : str) :
  ordered 0 (ents_of X) (length X) ->
  transform ents_of ignore_ents X = render ignore_ents X 0 (ents_of X).
Proof. intros H. unfold transform. by rewrite (substitute_loop X _ 0 H). Qed.

(** When every label is ignored and every span carries the text it
    covers, the text comes back unchanged. *)
Theorem generalize_ents_ignored (X : str) :
  Forall (fun e =>
            str_in (label_ e) ignore_ents = true /\
            (start_char e <= end_char e)%nat /\
            ent_text e = take (end_char e - start_char e) (drop (start_char e) X))
    (ents_of X) ->
  transform ents_of ignore_ents X = X.
Proof.
  unfold transform. intros H. apply Forall_rev in H.
  induction H as [|e l (Hl & Hle & Htext) _ IH]; [done|].
  cbn [foldl]. unfold substitute at 2. rewrite Hl, Htext.
  replace (end_char e) with (start_char e + (end_char e - start_char e))%nat
    at 2 by lia.
  rewrite <- drop_drop, take_drop, take_drop. exact IH.
Qed.

End EntsFacts.

Lemma generalize_ents_ordered_witness :
  GeneralizeEnts.transform Sample.meeting_ents [lit "CARDINAL"] Sample.meeting
  = Reading.render [lit "CARDINAL"] Sample.meeting 0
      (Sample.meeting_ents Sample.meeting).
Proof.
  apply (generalize_ents_ordered Sample.meeting_ents [lit "CARDINAL"]
           Sample.meeting).
  vm_compute. repeat split; lia.
Defined.

Lemma generalize_ents_ignored_witness :
  GeneralizeEnts.transform Sample.meeting_ents [lit "PERSON"; lit "GPE"]
    Sample.meeting = Sample.meeting.
Proof.
  apply (generalize_ents_ignored Sample.meeting_ents [lit "PERSON"; lit "GPE"]
           Sample.meeting).
  repeat constructor; vm_compute; lia.
Defined.

(** ** SkipPastTenses *)

Section PastTenseFacts.

Import SkipPastTenses Reading.

Variable sents_of : str -> list sent.

(** The loop over the children keeps the verdict of the last child
    tagged as a verb, or the initial verdict when there is none. *)
Lemma refine_loop (children : list token) (verdict : bool) :
  foldl refine verdict children
  = match last (verbs children) with
    | Some v => negb (str_eqb (tag_ v) (lit "VBP"))
    | None => verdict
    end.
Proof.
  revert verdict. induction children as [|c children IH]; intros verdict; [done|].
  cbn [foldl]. rewrite IH. unfold verbs. cbn [List.filter].
  unfold refine. destruct (str_eqb (pos_ c) (lit "VERB")); [|done].
  fold (verbs children). rewrite last_cons.
  by destruct (last (verbs children)).
Qed.

(** An utterance is dropped exactly when its last sentence has a root
    with the relation ROOT that is tagged VBD or has, among two or
    more children, an auxiliary tagged VBD, and the last child tagged
    as a verb, if there is one, is not tagged VBP: an earlier verb
    child has no say. *)
Theorem detect_past_tense_spec (sentence : str) :
  detect_past_tense sents_of sentence = true <->
  exists s,
    last (sents_of sentence) = Some s /\
    dep_ (root s) = lit "ROOT" /\
    (tag_ (root s) = lit "VBD" \/
     (exists w, w ∈ children s /\ dep_ w = lit "aux" /\ tag_ w = lit "VBD") /\
     (1 < length (children s))%nat) /\
    (forall v, last (verbs (children s)) = Some v -> tag_ v <> lit "VBP").
Proof.
  unfold detect_past_tense.
  destruct (last (sents_of sentence)) as [s|]; cycle 1.
  { split; [done|]. by intros (s & Hs & _). }
  assert (Htrigger :
    str_eqb (tag_ (root s)) (lit "VBD")
    || existsb (fun w => str_eqb (dep_ w) (lit "aux")
                         && str_eqb (tag_ w) (lit "VBD")) (children s)
       && (1 <? length (children s))%nat = true <->
    (tag_ (root s) = lit "VBD" \/
     (exists w, w ∈ children s /\ dep_ w = lit "aux" /\ tag_ w = lit "VBD") /\
     (1 < length (children s))%nat)).
  { unfold str_eqb.
    rewrite orb_true_iff, andb_true_iff, bool_decide_eq_true,
      existsb_exists, Nat.ltb_lt.
    split; (intros [H|[(w & Hw) Hlen]]; [by left|right; split; [|done]]);
      exists w.
    - destruct Hw as [Hin Hw]. apply andb_true_iff in Hw as [H1 H2].
      apply bool_decide_eq_true in H1, H2. by rewrite <- list_elem_of_In in Hin.
    - destruct Hw as (Hin & H1 & H2). rewrite <- list_elem_of_In.
      split; [done|]. by rewrite andb_true_iff, !bool_decide_eq_true. }
  assert (Hverdict :
    foldl refine true (children s) = true <->
    (forall v, last (verbs (children s)) = Some v -> tag_ v <> lit "VBP")).
  { rewrite refine_loop. destruct (last (verbs (children s))) as [v|].
    - unfold str_eqb. rewrite negb_true_iff, bool_decide_eq_false. split.
      + by intros H v' [= <-].
      + intros H. by apply H.
    - split; [by intros _ v|done]. }
  destruct (str_eqb (dep_ (root s)) (lit "ROOT")) eqn:Hroot; cycle 1.
  { split; [done|]. intros (s' & [= <-] & Hdep & _).
    unfold str_eqb in Hroot. by rewrite bool_decide_eq_true_2 in Hroot. }
  apply bool_decide_eq_true in Hroot.
  destruct (_ || _) eqn:Ht.
  - rewrite Hverdict. split.
    + intros Hv. exists s. repeat split; try done. by apply Htrigger.
    + by intros (s' & [= <-] & _ & _ & Hv).
  - split; [done|]. intros (s' & [= <-] & _ & Htr & _).
    apply Htrigger in Htr. congruence.
Qed.

End PastTenseFacts.

(** ** Labels and CleanPunctLight *)

Section LabelFacts.

(** The characters of a token of [split] are characters of the
    string. *)
Lemma split_from_chars (s tok t : str) (c : char) :
  t ∈ split_from tok s -> c ∈ t -> c ∈ tok \/ c ∈ s.
Proof.
  revert tok. induction s as [|d s IH]; intros tok Ht Hc.
  - simpl in Ht. destruct tok; [by apply elem_of_nil in Ht|].
    apply list_elem_of_singleton in Ht as ->. by left.
  - simpl in Ht. destruct (is_space d).
    + destruct tok as [|e tok].
      * destruct (IH [] Ht Hc) as [H|H]; [by apply elem_of_nil in H|].
        right. by apply list_elem_of_further.
      * apply elem_of_cons in Ht as [->|Ht]; [by left|].
        destruct (IH [] Ht Hc) as [H|H]; [by apply elem_of_nil in H|].
        right. by apply list_elem_of_further.
    + destruct (IH _ Ht Hc) as [H|H].
      * apply elem_of_app in H as [H|H]; [by left|].
        apply list_elem_of_singleton in H as ->. right. apply list_elem_of_here.
      * right. by apply list_elem_of_further.
Qed.

(** [CleanPunctLight] deletes the underscore: after it no token is one
    of the labels [DAY_NUMBER], [TIME_OF_THE_DAY], [DAY_OF_WEEK], which
    the generalization stages write with underscores. *)
Theorem clean_punct_light_breaks_labels (X : str) (t : str) :
  t ∈ split (CleanPunctLight.transform X) ->
  t <> GeneralizeDayNumber._label /\
  t <> GeneralizeTimeOfTheDay._label /\
  t <> GeneralizeDayOfWeek._label.
Proof.
  intros Ht.
  assert (Hno : 95%N ∉ t).
  { intros Hc. destruct (split_from_chars _ [] t 95%N Ht Hc) as [H|H];
      [by apply elem_of_nil in H|].
    apply delete_chars_gone in H as [_ H]. vm_compute in H. discriminate. }
  repeat split; intros ->; apply Hno;
    apply list_elem_of_In; vm_compute; tauto.
Qed.

End LabelFacts.

(** A text with a weekday label written by [GeneralizeDayOfWeek]. *)
Lemma clean_punct_light_breaks_labels_witness :
  lit "DAYOFWEEK" <> GeneralizeDayNumber._label /\
  lit "DAYOFWEEK" <> GeneralizeTimeOfTheDay._label /\
  lit "DAYOFWEEK" <> GeneralizeDayOfWeek._label.
Proof.
  apply (clean_punct_light_breaks_labels
           (GeneralizeDayOfWeek.transform (lit "see you on friday"))).
  vm_compute. apply list_elem_of_In. vm_compute. tauto.
Defined.

(** The parse of [Sample.parsed]: the root is tagged VBD, the last
    verb child VBP, and the utterance is kept. *)
Lemma detect_past_tense_spec_witness :
  SkipPastTenses.detect_past_tense Sample.parsed (lit "i said i go") = false.
Proof.
  apply not_true_iff_false. intros H.
  apply (detect_past_tense_spec Sample.parsed (lit "i said i go")) in H
    as (s & Hs & _ & _ & Hv).
  injection Hs as <-. by apply (Hv _ eq_refl).
Defined.

(** The letter [a] of the text [a1!] after [CleanPunct]. *)
Lemma cleaners_remove_witness :
  97%N ∈ lit "a1!" /\ 97%N ∉ GeneralizeTimeOfTheDay.punctuation.
Proof.
  apply (proj1 (cleaners_remove (lit "a1!") 97%N)).
  vm_compute. apply list_elem_of_here.
Defined.

(** Two tokens longer than one character. *)
Lemma one_char_result_witness :
  OneChar.transform [lit "work"; lit "on"] = [lit "work"; lit "on"].
Proof.
  apply (proj2 (one_char_result [lit "work"; lit "on"])).
  repeat constructor.
Defined.
